(** * nomad: the [action] command, [structs.Action] and the legacy CPU topology

    A shallow embedding of
    - [nomad/structs/actions.go]  ([Action.Copy], [Action.Equal]),
    - the processor-resources file ([LegacyNodeCpuResources.empty],
      [topologyFromLegacy]),
    - the [action] command ([ActionCommand.Run], [ActionCommand.execImpl]),
    followed by the properties proved about them. *)

From stdpp Require Import gmap strings list.
From Stdlib Require Import ZArith Lia Ascii.

Local Open Scope string_scope.

(** ** Go memory: pointers, slices and the heap of [Action] values *)

Module Structs.

(** An address.  A Go pointer [*T] is [option loc], [None] being [nil]. *)
Definition loc := nat.

(** A Go slice header over a backing array of strings: the array, the
    offset of the first element and the length.  The nil slice is [None]
    of [option slice]. *)
Record slice := Slice { s_arr : loc; s_off : nat; s_len : nat }.

(** [type Action struct { Name string; Command string; Args []string }] *)
Record Action := mkAction {
  Name : string;
  Command : string;
  Args : option slice
}.

(** The store: backing arrays of string slices, and [Action] objects. *)
Record heap := Heap {
  arrays : gmap loc (list string);
  actions : gmap loc Action
}.

(** The elements a slice denotes; [None] when the header does not fit its
    backing array (which Go's slice operations never produce). *)
Definition slice_elems (h : heap) (s : slice) : option (list string) :=
  match arrays h !! s_arr s with
  | Some a =>
      if decide (s_off s + s_len s <= length a)
      then Some (take (s_len s) (drop (s_off s) a))
      else None
  | None => None
  end.

(** Elements of a possibly nil slice: nil has no elements. *)
Definition args_elems (h : heap) (s : option slice) : option (list string) :=
  match s with
  | None => Some []
  | Some s => slice_elems h s
  end.

(** [s[i] = v]: an index out of range panics ([None]). *)
Definition slice_set (s : option slice) (i : nat) (v : string) (h : heap)
  : option heap :=
  match s with
  | None => None
  | Some s =>
      match arrays h !! s_arr s with
      | Some a =>
          if decide (i < s_len s /\ s_off s + s_len s <= length a)
          then Some (Heap (<[s_arr s := <[s_off s + i := v]> a]> (arrays h))
                          (actions h))
          else None
      | None => None
      end
  end.

(** [slices.Clone]: nil stays nil; otherwise the elements are copied into
    a newly allocated array. *)
Definition Clone (s : option slice) (h : heap) : option (option slice * heap) :=
  match s with
  | None => Some (None, h)
  | Some s =>
      match slice_elems h s with
      | Some xs =>
          let b := fresh (dom (arrays h)) in
          Some (Some (Slice b 0 (length xs)),
                Heap (<[b := xs]> (arrays h)) (actions h))
      | None => None
      end
  end.

(** [slices.Equal]: same length and equal elements; nil equals empty. *)
Definition slices_Equal (h : heap) (s1 s2 : option slice) : option bool :=
  match args_elems h s1, args_elems h s2 with
  | Some xs, Some ys => Some (bool_decide (xs = ys))
  | _, _ => None
  end.

(** [new(Action)]: a fresh object holding the zero value. *)
Definition new_Action (h : heap) : loc * heap :=
  let l := fresh (dom (actions h)) in
  (l, Heap (arrays h) (<[l := mkAction "" "" None]> (actions h))).

(** [func (a *Action) Copy() *Action] *)
Definition Copy (a : option loc) (h : heap) : option (option loc * heap) :=
  match a with
  | None => Some (None, h)
  | Some l =>
      let '(na, h1) := new_Action h in
      match actions h1 !! l with
      | Some obj =>
          (* *na = *a *)
          let h2 := Heap (arrays h1) (<[na := obj]> (actions h1)) in
          (* na.Args = slices.Clone(a.Args) *)
          match Clone (Args obj) h2 with
          | Some (args', h3) =>
              Some (Some na,
                    Heap (arrays h3)
                         (<[na := mkAction (Name obj) (Command obj) args']>
                            (actions h3)))
          | None => None
          end
      | None => None
      end
  end.

(** [func (a *Action) Equal(o *Action) bool] *)
Definition Equal (a o : option loc) (h : heap) : option bool :=
  if decide (a = o) then Some true
  else
    match a, o with
    | None, _ | _, None => Some false
    | Some la, Some lo =>
        match actions h !! la, actions h !! lo with
        | Some x, Some y =>
            if bool_decide (Name x = Name y) then
              if bool_decide (Command x = Command y) then
                slices_Equal h (Args x) (Args y)
              else Some false
            else Some false
        | _, _ => None
        end
    end.

(** [p.Args[i] = v] through a pointer to an [Action]. *)
Definition set_arg (p : option loc) (i : nat) (v : string) (h : heap)
  : option heap :=
  match p with
  | None => None
  | Some l =>
      match actions h !! l with
      | Some obj => slice_set (Args obj) i v h
      | None => None
      end
  end.

(** The argument list seen through a pointer to an [Action]. *)
Definition read_args (p : loc) (h : heap) : option (list string) :=
  match actions h !! p with
  | Some obj => args_elems h (Args obj)
  | None => None
  end.

(** A well-formed heap: every slice held by an [Action] fits its array. *)
Definition wf_heap (h : heap) : Prop :=
  forall l obj, actions h !! l = Some obj ->
    is_Some (args_elems h (Args obj)).

(** A pointer that is nil or points to an object of the heap. *)
Definition valid_ptr (h : heap) (p : option loc) : Prop :=
  match p with
  | None => True
  | Some l => is_Some (actions h !! l)
  end.

End Structs.

(** ** The legacy CPU resources and the topology built from them *)

Module Numa.

(** [type LegacyNodeCpuResources struct]: [CpuShares] is an [int64],
    [TotalCpuCores] a [uint16], [ReservableCpuCores] a [[]uint16] (a nil
    slice and an empty one both have length 0 and are the empty list). *)
Record LegacyNodeCpuResources := mkLegacy {
  CpuShares : Z;
  TotalCpuCores : Z;
  ReservableCpuCores : list Z
}.

(** [numalib.CoreGrade] *)
Inductive CoreGrade := Performance | Efficiency.

(** The fields of [numalib.Core] that [topologyFromLegacy] sets. *)
Record Core := mkCore {
  ID : Z;
  SocketID : Z;
  NodeID : Z;
  Grade : CoreGrade;
  Disable : bool;
  GuessSpeed : Z
}.

(** The fields of [numalib.Topology] that [topologyFromLegacy] sets. *)
Record Topology := mkTopology {
  NodeIDs : gset Z;
  Distances : list (list Z);
  Cores : list Core;
  OverrideTotalCompute : Z;
  OverrideWitholdCompute : Z
}.

(** [func (r LegacyNodeCpuResources) empty() bool] *)
Definition empty (r : LegacyNodeCpuResources) : bool :=
  (CpuShares r =? 0)%Z || (TotalCpuCores r =? 0)%Z
  || (length (ReservableCpuCores r) =? 0)%nat.

(** Go's [/] on [int64]: truncated division, a run-time panic ([None]) on
    a zero divisor.  (The quotient overflows only for a divisor of -1.) *)
Definition int64_div (a b : Z) : option Z :=
  if (b =? 0)%Z then None else Some (Z.quot a b).

(** [helper.ConvertSlice]: the element-wise conversion of a slice. *)
Definition ConvertSlice {A B : Type} (original : list A) (conversion : A -> B)
  : list B :=
  map conversion original.

Section Legacy.

(** The types [hw.MHz] and [hw.CoreID] are declared in the package
    [client/lib/numalib/hw]: [MHz] and [CoreID] stand for the
    conversion of an integer into each of them, and arithmetic in
    [hw.MHz] is the integer operation followed by [MHz]. *)
Variable MHz : Z -> Z.
Variable CoreID : Z -> Z.

(** [func topologyFromLegacy(old LegacyNodeCpuResources) *numalib.Topology];
    [None] is the division panic. *)
Definition topologyFromLegacy (old : LegacyNodeCpuResources)
  : option Topology :=
  match int64_div (CpuShares old)
                  (Z.of_nat (length (ReservableCpuCores old))) with
  | None => None
  | Some q =>
      let frequency := MHz q in
      let cores :=
        ConvertSlice (ReservableCpuCores old)
          (fun id => mkCore (CoreID id) 0 0 Performance false frequency) in
      let withheld :=
        MHz (MHz (frequency * MHz (TotalCpuCores old))
             - MHz (CpuShares old)) in
      Some (mkTopology {[ 0%Z ]} [[10%Z]] cores
              (MHz (CpuShares old)) withheld)
  end.

End Legacy.

(** *** NUMA affinity *)

Definition NoneNUMA : string := "none".
Definition PreferNUMA : string := "prefer".
Definition RequireNUMA : string := "require".

(** [type NUMA struct { Affinity string }].  A [*NUMA] is an
    [option NUMA]: the methods compare pointers with nil only. *)
Record NUMA := mkNUMA { Affinity : string }.

(** [func (n *NUMA) Equal(o *NUMA) bool] *)
Definition NUMA_Equal (n o : option NUMA) : bool :=
  match n, o with
  | None, None => true
  | None, Some _ | Some _, None => false
  | Some x, Some y => String.eqb (Affinity x) (Affinity y)
  end.

(** [func (n *NUMA) Copy() *NUMA] *)
Definition NUMA_Copy (n : option NUMA) : option NUMA :=
  match n with
  | None => None
  | Some x => Some (mkNUMA (Affinity x))
  end.

(** [func (n *NUMA) Validate() error], [None] being the nil error. *)
Definition NUMA_Validate (n : option NUMA) : option string :=
  match n with
  | None => None
  | Some x =>
      if String.eqb (Affinity x) NoneNUMA
         || String.eqb (Affinity x) PreferNUMA
         || String.eqb (Affinity x) RequireNUMA
      then None
      else Some "numa affinity must be one of none, prefer, or require"
  end.

(** [func (n *NUMA) Requested() bool] *)
Definition NUMA_Requested (n : option NUMA) : bool :=
  match n with
  | None => false
  | Some x => if String.eqb (Affinity x) NoneNUMA then false else true
  end.

(** *** Processor resources *)

(** [type NodeProcessorResources struct { Topology *numalib.Topology }],
    the pointer being an [option]. *)
Record NodeProcessorResources := mkNPR { npr_Topology : option Topology }.

(** [func (r NodeProcessorResources) empty() bool] *)
Definition NPR_empty (r : NodeProcessorResources) : bool :=
  match npr_Topology r with
  | None => true
  | Some t => (length (Cores t) =? 0)%nat
  end.

(** [func NewNodeProcessorResources(top *numalib.Topology)] *)
Definition NewNodeProcessorResources (top : option Topology)
  : NodeProcessorResources :=
  mkNPR top.

(** [func (r *NodeProcessorResources) Copy() NodeProcessorResources] *)
Definition NPR_Copy (r : NodeProcessorResources) : NodeProcessorResources :=
  mkNPR (npr_Topology r).

(** [func (r *NodeProcessorResources) Merge(o *NodeProcessorResources)]:
    the value of [*r] after the call. *)
Definition NPR_Merge (r : NodeProcessorResources)
  (o : option NodeProcessorResources) : NodeProcessorResources :=
  match o with
  | None => r
  | Some o' =>
      match npr_Topology o' with
      | None => r
      | Some t => mkNPR (Some t)
      end
  end.

End Numa.

(** ** The [action] command *)

Module Command.

(** A Go [error], by its message. *)
Definition error := string.

(** The line feed, for the messages that contain one. *)
Definition nl : string := String "010"%char "".

(** The [io.Reader] values [execImpl] receives: the exhausted reader
    [bytes.NewReader(nil)], [os.Stdin], or a reader supplied by the
    caller. *)
Inductive Source :=
  | BytesReaderNil
  | OsStdin
  | UserReader (n : nat).

(** The [io.Reader] values [execImpl] hands to the remote call: the
    reader it received, or [escapingio.NewReader(r, c, f)] where [f] is
    [execImpl]'s callback. *)
Inductive Reader :=
  | Direct (r : Source)
  | EscapingReader (r : Source) (c : ascii).

(** [io.WriteCloser] values the command handles. *)
Inductive Writer := OsStdout | OsStderr | UserWriter (n : nat).

(** [type ActionCommand struct { Meta; Stdin; Stdout; Stderr }], [None]
    being a nil interface. *)
Record ActionCommand := mkActionCommand {
  Stdin : option Source;
  Stdout : option Writer;
  Stderr : option Writer
}.

(** The variables [Run] binds to its flags, and [flags.Args()]. *)
Record Flags := mkFlags {
  task : string;
  group : string;
  allocation : string;
  job : string;
  stdinOpt : bool;
  ttyOpt : bool;
  escapeChar : string;
  args : list string
}.

(** The flag values before parsing: [-i] true, [-t] [isTty()], [-e] ["~"]. *)
Definition default_flags (isTty : bool) : Flags :=
  mkFlags "" "" "" "" true isTty "~" [].

(** The fields of [api.AllocationListStub] that [Run] reads. *)
Record AllocationListStub := mkStub {
  stub_ID : string;
  stub_Namespace : string
}.

(** The three scoped resources of an interactive session. *)
Inductive Resource := TermIn | TermOut | SizeWatch.

(** What happens on the local side while [ActionExec] runs: the escaping
    reader saw the escape character at the start of a line followed by
    byte [c] and calls the callback; or the process receives
    [os.Interrupt] or [SIGTERM]. *)
Inductive Interrupt :=
  | EscapeByte (c : ascii)
  | OsSignal.

(** Terminal mode, watcher registration and the context's cancellation,
    and the modes the terminal set-up saved for its restore. *)
Record State := mkState {
  in_raw : bool;
  out_raw : bool;
  watching : bool;
  cancelled : bool;
  saved_in : bool;
  saved_out : bool
}.

(** A deferred call. *)
Inductive Deferred := DCancel | DRelease (r : Resource).

Section WithAllocation.

(** [api.Allocation], which [Run] only hands on. *)
Variable Allocation : Type.

(** The arguments of [client.Jobs().ActionExec] that vary. *)
Record ExecArgs := mkExecArgs {
  ea_alloc : Allocation;
  ea_task : string;
  ea_tty : bool;
  ea_action : string;
  ea_stdin : option Reader;
  ea_stdout : Writer;
  ea_stderr : Writer
}.

(** The observable actions of the command, in program order. *)
Inductive Event :=
  | UiError (msg : string)
  | EvMetaClient
  | EvJobIDByPrefix (job : string)
  | EvGetRandomJobAlloc (jobID group ns : string)
  | EvPrefixList (prefix : string)
  | EvAllocInfo (id ns : string)
  | EvAcquire (r : Resource)
  | EvSignalNotify
  | EvActionExec (a : ExecArgs)
  | EvRelease (r : Resource)
  | EvWrite (w : Writer) (s : string)
  | EvCancel.

(** The collaborators of the command: the API client, the helpers of the
    package and the outcome of the terminal set-up. *)
Record Env := mkEnv {
  MetaClient : option error;
  JobIDByPrefix : string -> error + (string * string);
  getRandomJobAlloc : string -> string -> string -> error + AllocationListStub;
  sanitizeUUIDPrefix : string -> string;
  PrefixList : string -> error + list AllocationListStub;
  formatAllocListStubs : list AllocationListStub -> string;
  fmt_q : string -> string;
  AllocInfo : string -> string -> error + Allocation;
  validateTaskExistsInAllocation : string -> Allocation -> option error;
  lookupAllocTask : Allocation -> error + string;
  setRawTerminal : Source -> option error;
  setRawTerminalOutput : Writer -> option error;
  watchTerminalSize : Writer -> option error;
  ActionExec : ExecArgs -> list Interrupt * (Z * option error)
}.

(** *** Function bodies with early return and deferred calls

    A body with result type [R] runs on the frame's stack of deferred
    calls (most recent first) and the state; it either returns ([inl]) or
    goes on with a value ([inr]), and emits events. *)
Definition Body (R A : Type) : Type :=
  list Deferred -> State -> (R + A) * list Deferred * State * list Event.

Definition ret {R A} (a : A) : Body R A :=
  fun fr s => (inr a, fr, s, []).

Definition bind {R A B} (m : Body R A) (k : A -> Body R B) : Body R B :=
  fun fr s =>
    match m fr s with
    | (inl r, fr1, s1, e1) => (inl r, fr1, s1, e1)
    | (inr a, fr1, s1, e1) =>
        match k a fr1 s1 with
        | (x, fr2, s2, e2) => (x, fr2, s2, (e1 ++ e2)%list)
        end
    end.

(** [return r] *)
Definition return_ {R A} (r : R) : Body R A :=
  fun fr s => (inl r, fr, s, []).

Definition emit {R} (e : Event) : Body R unit :=
  fun fr s => (inr tt, fr, s, [e]).

(** [defer d] *)
Definition defer {R} (d : Deferred) : Body R unit :=
  fun fr s => (inr tt, d :: fr, s, []).

(** A step on the state that emits events. *)
Definition act {R} (f : State -> State * list Event) : Body R unit :=
  fun fr s => let '(s1, e) := f s in (inr tt, fr, s1, e).

End WithAllocation.

Arguments UiError {Allocation}.
Arguments EvMetaClient {Allocation}.
Arguments EvJobIDByPrefix {Allocation}.
Arguments EvGetRandomJobAlloc {Allocation}.
Arguments EvPrefixList {Allocation}.
Arguments EvAllocInfo {Allocation}.
Arguments EvAcquire {Allocation}.
Arguments EvSignalNotify {Allocation}.
Arguments EvActionExec {Allocation}.
Arguments EvRelease {Allocation}.
Arguments EvWrite {Allocation}.
Arguments EvCancel {Allocation}.
Arguments MetaClient {Allocation}.
Arguments JobIDByPrefix {Allocation}.
Arguments getRandomJobAlloc {Allocation}.
Arguments sanitizeUUIDPrefix {Allocation}.
Arguments PrefixList {Allocation}.
Arguments formatAllocListStubs {Allocation}.
Arguments fmt_q {Allocation}.
Arguments AllocInfo {Allocation}.
Arguments validateTaskExistsInAllocation {Allocation}.
Arguments lookupAllocTask {Allocation}.
Arguments setRawTerminal {Allocation}.
Arguments setRawTerminalOutput {Allocation}.
Arguments watchTerminalSize {Allocation}.
Arguments ActionExec {Allocation}.
Arguments ea_alloc {Allocation}.
Arguments ea_task {Allocation}.
Arguments ea_tty {Allocation}.
Arguments ea_action {Allocation}.
Arguments ea_stdin {Allocation}.
Arguments ea_stdout {Allocation}.
Arguments ea_stderr {Allocation}.
Arguments mkExecArgs {Allocation}.
Arguments ret {Allocation R A}.
Arguments bind {Allocation R A B}.
Arguments return_ {Allocation R A}.
Arguments emit {Allocation R}.
Arguments defer {Allocation R}.
Arguments act {Allocation R}.

Declare Scope body_scope.
Delimit Scope body_scope with body.
Notation "x <- c ;; k" := (bind c (fun x => k))
  (at level 100, c at next level, right associativity) : body_scope.
Notation "c ;; k" := (bind c (fun _ => k))
  (at level 100, right associativity) : body_scope.

Local Open Scope body_scope.

Section Program.

Context {Allocation : Type}.
Variable env : Env Allocation.

(** [cancelFn()], the cancel function of the session's context. *)
Definition cancelFn (s : State) : State * list (Event Allocation) :=
  (mkState (in_raw s) (out_raw s) (watching s) true
     (saved_in s) (saved_out s), [EvCancel]).

(** Modelled from the spec: [setRawTerminal], [setRawTerminalOutput] and
    [watchTerminalSize] are defined in another file of the package.  A
    successful set-up of a terminal saves its current mode and switches
    it to raw mode; that of the watcher registers it. *)
Definition acquire (r : Resource) (s : State) : State * list (Event Allocation) :=
  match r with
  | TermIn => (mkState true (out_raw s) (watching s) (cancelled s)
                 (in_raw s) (saved_out s),
               [EvAcquire TermIn])
  | TermOut => (mkState (in_raw s) true (watching s) (cancelled s)
                  (saved_in s) (out_raw s),
                [EvAcquire TermOut])
  | SizeWatch => (mkState (in_raw s) (out_raw s) true (cancelled s)
                    (saved_in s) (saved_out s),
                  [EvAcquire SizeWatch])
  end.

(** Modelled from the spec: the closures [inCleanup], [outCleanup] and
    [sizeCleanup] that the set-up functions return are defined in another
    file of the package.  The release of a terminal puts the saved prior
    mode back, that of the watcher deregisters it; calling it again
    changes nothing. *)
Definition release (r : Resource) (s : State) : State * list (Event Allocation) :=
  match r with
  | TermIn => (mkState (saved_in s) (out_raw s) (watching s) (cancelled s)
                 (saved_in s) (saved_out s),
               [EvRelease TermIn])
  | TermOut => (mkState (in_raw s) (saved_out s) (watching s) (cancelled s)
                  (saved_in s) (saved_out s),
                [EvRelease TermOut])
  | SizeWatch => (mkState (in_raw s) (out_raw s) false (cancelled s)
                    (saved_in s) (saved_out s),
                  [EvRelease SizeWatch])
  end.

Definition run_deferred (d : Deferred) (s : State)
  : State * list (Event Allocation) :=
  match d with
  | DCancel => cancelFn s
  | DRelease r => release r s
  end.

(** The deferred calls of a frame run last-in-first-out. *)
Fixpoint run_defers (fr : list Deferred) (s : State)
  : State * list (Event Allocation) :=
  match fr with
  | [] => (s, [])
  | d :: fr' =>
      let '(s1, e1) := run_deferred d s in
      let '(s2, e2) := run_defers fr' s1 in
      (s2, (e1 ++ e2)%list)
  end.

(** A call: the body runs on an empty frame, then the deferred calls. *)
Definition call {R} (b : Body Allocation R R) (s : State)
  : R * State * list (Event Allocation) :=
  match b [] s with
  | (x, fr, s1, e1) =>
      let '(s2, e2) := run_defers fr s1 in
      (match x with inl r => r | inr r => r end, s2, (e1 ++ e2)%list)
  end.

(** A call as a step of the caller's body. *)
Definition callee {R A} (f : State -> A * State * list (Event Allocation))
  : Body Allocation R A :=
  fun fr s => let '(a, s1, e) := f s in (inr a, fr, s1, e).

Definition when {R} (b : bool) (m : Body Allocation R unit)
  : Body Allocation R unit :=
  if b then m else ret tt.

(** [l.Ui.Error(msg); return 1] *)
Definition fail1 {A} (msg : string) : Body Allocation Z A :=
  emit (UiError msg) ;; return_ 1%Z.

(** The callback [execImpl] hands to [escapingio.NewReader]. *)
Definition escape_callback (stderr : Writer) (c : ascii) (s : State)
  : bool * State * list (Event Allocation) :=
  if Ascii.eqb c "."%char then
    let '(s1, e1) := release TermOut s in
    let '(s2, e2) := release TermIn s1 in
    let e3 := [EvWrite stderr (nl ++ "Connection closed" ++ nl)%string] in
    let '(s3, e4) := cancelFn s2 in
    (true, s3, (e1 ++ e2 ++ e3 ++ e4)%list)
  else (false, s, []).

(** One local happening during the remote call.  The callback runs only
    if [stdin] is the escaping reader; [for range signalCh { cancelFn() }]
    serves the signals. *)
Definition on_interrupt (stdin : option Reader) (stderr : Writer)
  (i : Interrupt) (s : State) : State * list (Event Allocation) :=
  match i with
  | OsSignal => cancelFn s
  | EscapeByte c =>
      match stdin with
      | Some (EscapingReader _ _) =>
          let '(_, s1, e) := escape_callback stderr c s in (s1, e)
      | _ => (s, [])
      end
  end.

Fixpoint session (stdin : option Reader) (stderr : Writer)
  (evs : list Interrupt) (s : State) : State * list (Event Allocation) :=
  match evs with
  | [] => (s, [])
  | i :: evs' =>
      let '(s1, e1) := on_interrupt stdin stderr i s in
      let '(s2, e2) := session stdin stderr evs' s1 in
      (s2, (e1 ++ e2)%list)
  end.

(** [func (l *ActionCommand) execImpl(client, alloc, task, job, action, tty,
    escapeChar, stdin, stdout, stderr) (int, error)] *)
Definition execImpl_body (alloc : Allocation) (task job action : string)
  (tty : bool) (escapeChar : string) (stdin : option Source)
  (stdout stderr : Writer)
  : Body Allocation (Z * option error) (Z * option error) :=
  defer DCancel ;;
  stdin <-
    (if tty then
       match stdin with
       | None => return_ ((-1)%Z, Some "stdin is null")
       | Some r =>
           match setRawTerminal env r with
           | Some err => return_ ((-1)%Z, Some err)
           | None =>
               act (acquire TermIn) ;;
               defer (DRelease TermIn) ;;
               match setRawTerminalOutput env stdout with
               | Some err => return_ ((-1)%Z, Some err)
               | None =>
                   act (acquire TermOut) ;;
                   defer (DRelease TermOut) ;;
                   match watchTerminalSize env stdout with
                   | Some err => return_ ((-1)%Z, Some err)
                   | None =>
                       act (acquire SizeWatch) ;;
                       defer (DRelease SizeWatch) ;;
                       match escapeChar with
                       | EmptyString => ret (Some (Direct r))
                       | String c _ => ret (Some (EscapingReader r c))
                       end
                   end
               end
           end
       end
     else ret (option_map Direct stdin)) ;;
  emit EvSignalNotify ;;
  let a := mkExecArgs alloc task tty action stdin stdout stderr in
  emit (EvActionExec a) ;;
  let '(evs, result) := ActionExec env a in
  act (session stdin stderr evs) ;;
  return_ result.

Definition execImpl (alloc : Allocation) (task job action : string)
  (tty : bool) (escapeChar : string) (stdin : option Source)
  (stdout stderr : Writer) (s : State)
  : (Z * option error) * State * list (Event Allocation) :=
  call (execImpl_body alloc task job action tty escapeChar stdin stdout stderr) s.

(** [func (l *ActionCommand) Run(args []string) int], from the result of
    [flags.Parse] on. *)
Definition Run_body (l : ActionCommand) (parsed : error + Flags)
  : Body Allocation Z Z :=
  match parsed with
  | inl err => fail1 ("Error parsing flags: " ++ err)
  | inr f =>
      when (length (args f) <? 1)%nat (fail1 "An action name is required") ;;
      when (String.eqb (job f) "") (fail1 "A job ID is required") ;;
      when (ttyOpt f && negb (stdinOpt f))
        (fail1 "-i must be enabled if running with tty") ;;
      let escapeChar :=
        if String.eqb (escapeChar f) "none" then "" else escapeChar f in
      when (1 <? String.length escapeChar)%nat
        (fail1 "-e requires 'none' or a single character") ;;
      emit EvMetaClient ;;
      match MetaClient env with
      | Some err => fail1 ("Error initializing client: " ++ err)
      | None => ret tt
      end ;;
      allocStub <-
        (if String.eqb (allocation f) "" then
           when (String.eqb (group f) "")
             (fail1 "A group name is required if no allocation is provided") ;;
           when (String.eqb (task f) "")
             (fail1 "A task name is required if no allocation is provided") ;;
           emit (EvJobIDByPrefix (job f)) ;;
           match JobIDByPrefix env (job f) with
           | inl err => fail1 err
           | inr (jobID, ns) =>
               emit (EvGetRandomJobAlloc jobID (group f) ns) ;;
               match getRandomJobAlloc env jobID (group f) ns with
               | inl err => fail1 ("Error fetching allocations: " ++ err)
               | inr stub => ret stub
               end
           end
         else
           let prefix := sanitizeUUIDPrefix env (allocation f) in
           emit (EvPrefixList prefix) ;;
           match PrefixList env prefix with
           | inl err => fail1 ("Error querying allocation: " ++ err)
           | inr allocs =>
               match allocs with
               | [] =>
                   fail1 ("No allocation(s) with prefix or id "
                          ++ fmt_q env (allocation f) ++ " found")
               | [stub] => ret stub
               | _ :: _ :: _ =>
                   fail1 ("Prefix matched multiple allocations" ++ nl ++ nl
                          ++ formatAllocListStubs env allocs)
               end
           end) ;;
      emit (EvAllocInfo (stub_ID allocStub) (stub_Namespace allocStub)) ;;
      alloc <-
        match AllocInfo env (stub_ID allocStub) (stub_Namespace allocStub) with
        | inl err => fail1 ("Error querying allocation: " ++ err)
        | inr alloc => ret alloc
        end ;;
      task <-
        (if negb (String.eqb (task f) "") then
           match validateTaskExistsInAllocation env (task f) alloc with
           | Some err => fail1 err
           | None => ret (task f)
           end
         else
           match lookupAllocTask env alloc with
           | inl err => fail1 err
           | inr t => ret t
           end) ;;
      let stdin := if negb (stdinOpt f) then Some BytesReaderNil else Stdin l in
      let stdin := match stdin with None => Some OsStdin | Some r => Some r end in
      let stdout := match Stdout l with None => OsStdout | Some w => w end in
      let stderr := match Stderr l with None => OsStderr | Some w => w end in
      let action := hd "" (args f) in
      r <- callee (execImpl alloc task (job f) action (ttyOpt f) escapeChar
                     stdin stdout stderr) ;;
      match r with
      | (_, Some err) => fail1 ("failed to exec into task: " ++ err)
      | (code, None) => return_ code
      end
  end.

Definition Run (l : ActionCommand) (parsed : error + Flags) (s : State)
  : Z * State * list (Event Allocation) :=
  call (Run_body l parsed) s.

(** *** Reading a run *)

(** The resources acquired, in order. *)
Definition acquisitions (evs : list (Event Allocation)) : list Resource :=
  flat_map (fun e => match e with EvAcquire r => [r] | _ => [] end) evs.

(** The release calls, in order. *)
Definition releases (evs : list (Event Allocation)) : list Resource :=
  flat_map (fun e => match e with EvRelease r => [r] | _ => [] end) evs.



(** Is the resource held in the state? *)
Definition held (r : Resource) (s : State) : bool :=
  match r with
  | TermIn => in_raw s
  | TermOut => out_raw s
  | SizeWatch => watching s
  end.

(** The notice of the escape abort. *)
Definition notice : string := nl ++ "Connection closed" ++ nl.

Definition is_notice (e : Event Allocation) : bool :=
  match e with
  | EvWrite _ m => String.eqb m notice
  | _ => false
  end.

Definition is_escape_dot (i : Interrupt) : bool :=
  match i with
  | EscapeByte c => Ascii.eqb c "."%char
  | OsSignal => false
  end.

(** Is the reader the escaping reader? *)
Definition escaping (r : option Reader) : bool :=
  match r with
  | Some (EscapingReader _ _) => true
  | _ => false
  end.

(** Events of the API client. *)
Definition is_rpc (e : Event Allocation) : bool :=
  match e with
  | EvMetaClient | EvJobIDByPrefix _ | EvGetRandomJobAlloc _ _ _
  | EvPrefixList _ | EvAllocInfo _ _ => true
  | _ => false
  end.

(** The client calls that fit the way the target is given: the prefix
    list with an allocation flag, the job and its allocations without. *)
Definition fits_target (f : Flags) (e : Event Allocation) : bool :=
  match e with
  | EvPrefixList _ => negb (String.eqb (allocation f) "")
  | EvJobIDByPrefix _ | EvGetRandomJobAlloc _ _ _ =>
      String.eqb (allocation f) ""
  | _ => true
  end.

(** Events of [execImpl] other than the remote call itself. *)
Definition is_local (e : Event Allocation) : bool :=
  match e with
  | EvAcquire _ | EvRelease _ | EvWrite _ _ | EvCancel | EvSignalNotify => true
  | _ => false
  end.

(** The escape character [Run] hands to [execImpl]:
    [if escapeChar == "none" { escapeChar = "" }]. *)
Definition escape_of (f : Flags) : string :=
  if String.eqb (escapeChar f) "none" then "" else escapeChar f.

(** The streams [Run] hands to [execImpl]. *)
Definition stdin_of (l : ActionCommand) (f : Flags) : option Source :=
  match (if negb (stdinOpt f) then Some BytesReaderNil else Stdin l) with
  | None => Some OsStdin
  | Some r => Some r
  end.

Definition stdout_of (l : ActionCommand) : Writer :=
  match Stdout l with None => OsStdout | Some w => w end.

Definition stderr_of (l : ActionCommand) : Writer :=
  match Stderr l with None => OsStderr | Some w => w end.

(** The reader [execImpl] hands to the remote call. *)
Definition session_stdin (tty : bool) (esc : string) (stdin : option Source)
  : option Reader :=
  if tty then
    match stdin with
    | Some r =>
        match esc with
        | EmptyString => Some (Direct r)
        | String c _ => Some (EscapingReader r c)
        end
    | None => None
    end
  else option_map Direct stdin.

(** The flags pass the checks [Run] makes before it creates a client. *)
Definition valid_flags (f : Flags) : Prop :=
  args f <> [] /\ job f <> "" /\
  (ttyOpt f = true -> stdinOpt f = true) /\
  String.length (escape_of f) <= 1.

(** The client is created and the target resolves to [stub]: a random
    allocation of the group, or the single match of the prefix. *)
Definition resolves (f : Flags) (stub : AllocationListStub) : Prop :=
  MetaClient env = None /\
  ((allocation f = "" /\ group f <> "" /\ task f <> "" /\
    exists jobID ns,
      JobIDByPrefix env (job f) = inr (jobID, ns) /\
      getRandomJobAlloc env jobID (group f) ns = inr stub) \/
   (allocation f <> "" /\
    PrefixList env (sanitizeUUIDPrefix env (allocation f)) = inr [stub])).

(** The events up to and including the allocation query. *)
Definition resolution_events (f : Flags) (stub : AllocationListStub)
  : list (Event Allocation) :=
  EvMetaClient ::
  (if String.eqb (allocation f) "" then
     match JobIDByPrefix env (job f) with
     | inr (jobID, ns) =>
         [EvJobIDByPrefix (job f); EvGetRandomJobAlloc jobID (group f) ns]
     | inl _ => []
     end
   else [EvPrefixList (sanitizeUUIDPrefix env (allocation f))])
  ++ [EvAllocInfo (stub_ID stub) (stub_Namespace stub)].

(** The task [Run] settles on for [alloc], or the error it reports. *)
Definition resolve_task (f : Flags) (alloc : Allocation) : error + string :=
  if negb (String.eqb (task f) "") then
    match validateTaskExistsInAllocation env (task f) alloc with
    | Some err => inl err
    | None => inr (task f)
    end
  else lookupAllocTask env alloc.

(** How [Run] ends once [execImpl] has returned [x], [pre] being the
    events before the call. *)
Definition exit_of_exec (pre : list (Event Allocation))
  (x : (Z * option error) * State * list (Event Allocation))
  : Z * State * list (Event Allocation) :=
  match x with
  | ((_, Some err), s, ev) =>
      (1%Z, s, (pre ++ ev ++ [UiError ("failed to exec into task: " ++ err)])%list)
  | ((code, None), s, ev) => (code, s, (pre ++ ev)%list)
  end.

End Program.

(** The flags with another value of [-job]. *)
Definition set_job (f : Flags) (j : string) : Flags :=
  mkFlags (task f) (group f) (allocation f) j (stdinOpt f) (ttyOpt f)
    (escapeChar f) (args f).

End Command.

(** ** A concrete cluster to run the command on *)

Module Sample.
Import Command.

(** An allocation, as far as the sample collaborators look at it: its ID
    and the names of its tasks. *)
Definition Alloc : Type := string * list string.

Definition cluster : list Alloc :=
  [("abc123", ["server"]); ("abc789", ["server"; "sidecar"])].

Definition dq : string := String "034"%char "".

Definition sample_env (irqs : list Interrupt) (result : Z * option error)
  : Env Alloc :=
  {| MetaClient := None;
     JobIDByPrefix := fun j => inr (j, "default");
     getRandomJobAlloc := fun _ _ ns => inr (mkStub "abc123" ns);
     sanitizeUUIDPrefix := fun p => p;
     PrefixList := fun p =>
       inr (map (fun a => mkStub (fst a) "default")
              (filter (fun a => String.prefix p (fst a) = true) cluster));
     formatAllocListStubs := fun l =>
       fold_right (fun a acc => stub_ID a ++ nl ++ acc) "" l;
     fmt_q := fun x => dq ++ x ++ dq;
     AllocInfo := fun id _ =>
       match filter (fun a => fst a = id) cluster with
       | a :: _ => inr a
       | [] => inl "alloc not found"
       end;
     validateTaskExistsInAllocation := fun t a =>
       if bool_decide (t ∈ snd a) then None
       else Some "Could not find task named: " ;
     lookupAllocTask := fun a =>
       match snd a with
       | [t] => inr t
       | _ => inl "Allocation has several tasks"
       end;
     setRawTerminal := fun _ => None;
     setRawTerminalOutput := fun _ => None;
     watchTerminalSize := fun _ => None;
     ActionExec := fun _ => (irqs, result) |}.

Definition cmd : ActionCommand := mkActionCommand None None None.

Definition cooked : State := mkState false false false false false false.

(** Both terminals already in raw mode before the command starts. *)
Definition raw_before : State := mkState true true false false false false.

(** [nomad action -job web -allocation <a> -t=<tty> -e <e> ping] *)
Definition flags_alloc (a : string) (tty : bool) (e : string) : Flags :=
  mkFlags "" "" a "web" true tty e ["ping"].

(** [-t] with [-i=false]. *)
Definition flags_no_stdin : Flags :=
  mkFlags "" "" "abc1" "web" false true "~" ["ping"].

(** No allocation, no group. *)
Definition flags_no_target : Flags :=
  mkFlags "server" "" "" "web" true false "~" ["ping"].

(** An action in memory: its arguments are a slice over array 0. *)
Definition sample_action : Structs.Action :=
  Structs.mkAction "ping" "/bin/sh" (Some (Structs.Slice 0 0 2)).

Definition sample_heap : Structs.heap :=
  Structs.Heap {[ 0 := ["-c"; "echo pong"] ]} {[ 0 := sample_action ]}.

(** [hw.MHz] as a 64-bit and [hw.CoreID] as a 16-bit unsigned integer. *)
Definition uint64 (x : Z) : Z := (x mod 2 ^ 64)%Z.
Definition uint16 (x : Z) : Z := (x mod 2 ^ 16)%Z.

Definition legacy4 : Numa.LegacyNodeCpuResources :=
  Numa.mkLegacy 8000 4 [0; 1; 2; 3]%Z.

Definition legacy_no_cores : Numa.LegacyNodeCpuResources :=
  Numa.mkLegacy 8000 4 [].

(** Two actions with equal fields in storage of their own. *)
Definition sample_heap2 : Structs.heap :=
  Structs.Heap
    {[ 0 := ["-c"; "echo pong"]; 1 := ["-c"; "echo pong"] ]}
    {[ 0 := sample_action;
       1 := Structs.mkAction "ping" "/bin/sh" (Some (Structs.Slice 1 0 2)) ]}.

(** The sample cluster on a machine whose stdout is not a terminal. *)
Definition sample_env_out_fails : Env Alloc :=
  let e := sample_env [] (0%Z, None) in
  {| MetaClient := MetaClient e;
     JobIDByPrefix := JobIDByPrefix e;
     getRandomJobAlloc := getRandomJobAlloc e;
     sanitizeUUIDPrefix := sanitizeUUIDPrefix e;
     PrefixList := PrefixList e;
     formatAllocListStubs := formatAllocListStubs e;
     fmt_q := fmt_q e;
     AllocInfo := AllocInfo e;
     validateTaskExistsInAllocation := validateTaskExistsInAllocation e;
     lookupAllocTask := lookupAllocTask e;
     setRawTerminal := setRawTerminal e;
     setRawTerminalOutput := fun _ => Some "not a terminal";
     watchTerminalSize := watchTerminalSize e;
     ActionExec := ActionExec e |}.

End Sample.

(** * Properties *)

(** ** [Action.Copy] and [Action.Equal] *)

Section ActionProofs.
Import Structs.

(** What a slice denotes depends on the backing arrays only. *)
Lemma args_elems_actions_irrel (ar : gmap loc (list string))
  (ac1 ac2 : gmap loc Action) (a : option slice) :
  args_elems (Heap ar ac1) a = args_elems (Heap ar ac2) a.
Proof. destruct a as [s|]; reflexivity. Qed.

(** Writing an array that a slice does not point into leaves what the
    slice denotes unchanged. *)
Lemma args_elems_insert_other (h : heap) (b : loc) (ys : list string)
  (ac : gmap loc Action) (a : option slice) :
  arrays h !! b = None ->
  is_Some (args_elems h a) ->
  args_elems (Heap (<[b := ys]> (arrays h)) ac) a = args_elems h a.
Proof.
  intros Hb [xs Hxs]. destruct a as [s|]; [|reflexivity].
  simpl in *. unfold slice_elems in *. simpl.
  destruct (arrays h !! s_arr s) as [arr|] eqn:Harr; [|discriminate].
  assert (b <> s_arr s) by congruence.
  rewrite lookup_insert_ne by assumption. rewrite Harr. reflexivity.
Qed.

Lemma slice_elems_whole (ar : gmap loc (list string)) (ac : gmap loc Action)
  (b : loc) (xs : list string) :
  slice_elems (Heap (<[b := xs]> ar) ac) (Slice b 0 (length xs)) = Some xs.
Proof.
  unfold slice_elems. simpl. rewrite lookup_insert_eq.
  rewrite drop_0, firstn_all. case_decide; [reflexivity | lia].
Qed.

Lemma fresh_array_unused (h : heap) :
  arrays h !! fresh (dom (arrays h)) = None.
Proof. apply not_elem_of_dom, is_fresh. Qed.

Lemma fresh_action_unused (h : heap) :
  actions h !! fresh (dom (actions h)) = None.
Proof. apply not_elem_of_dom, is_fresh. Qed.

(** The heap [Copy] leaves behind: the copy sits at a fresh address and,
    unless the arguments are nil, holds a slice over a fresh array. *)
Lemma Copy_result (h : heap) (l : loc) (obj : Action) :
  wf_heap h -> actions h !! l = Some obj ->
  let na := fresh (dom (actions h)) in
  let b := fresh (dom (arrays h)) in
  exists args' ar',
    Copy (Some l) h =
      Some (Some na,
            Heap ar' (<[na := mkAction (Name obj) (Command obj) args']>
                        (actions h))) /\
    ((Args obj = None /\ args' = None /\ ar' = arrays h) \/
     (exists s xs, Args obj = Some s /\ slice_elems h s = Some xs /\
        args' = Some (Slice b 0 (length xs)) /\ ar' = <[b := xs]> (arrays h))).
Proof.
  intros Hwf Hl na b.
  pose proof (fresh_action_unused h) as Hna. fold na in Hna.
  assert (Hne : na <> l) by congruence.
  unfold Copy, new_Action. fold na. simpl.
  rewrite lookup_insert_ne by assumption. rewrite Hl.
  destruct (Hwf l obj Hl) as [xs Hxs].
  destruct (Args obj) as [s|] eqn:HA; simpl in *.
  - exists (Some (Slice b 0 (length xs))), (<[b := xs]> (arrays h)).
    assert (Hsame : forall ac, slice_elems (Heap (arrays h) ac) s
                               = slice_elems h s) by reflexivity.
    rewrite Hsame, Hxs. simpl. rewrite !insert_insert_eq.
    split; [reflexivity|]. right. exists s, xs. auto.
  - exists None, (arrays h). rewrite !insert_insert_eq.
    split; [reflexivity|]. left. auto.
Qed.

(** [Equal] on two objects, computed. *)
Lemma Equal_objects (h : heap) (la lo : loc) (x y : Action) :
  actions h !! la = Some x -> actions h !! lo = Some y ->
  is_Some (args_elems h (Args x)) -> is_Some (args_elems h (Args y)) ->
  Equal (Some la) (Some lo) h =
  Some (bool_decide (Name x = Name y) && bool_decide (Command x = Command y)
        && bool_decide (args_elems h (Args x) = args_elems h (Args y))).
Proof.
  intros Hx Hy [xs Hxs] [ys Hys]. unfold Equal.
  destruct (decide (Some la = Some lo)) as [E|E].
  - injection E as ->. rewrite Hx in Hy. injection Hy as ->.
    rewrite !bool_decide_eq_true_2 by reflexivity. reflexivity.
  - rewrite Hx, Hy. unfold slices_Equal. rewrite Hxs, Hys.
    destruct (bool_decide (Name x = Name y)); [|reflexivity].
    destruct (bool_decide (Command x = Command y)); [|reflexivity].
    simpl. f_equal. apply bool_decide_ext. split; congruence.
Qed.

(** The copy of an object: a new object with the same fields, equal to
    the original, whose arguments live in storage of their own. *)
Lemma Copy_Equal_copy (h : heap) (l : loc) (obj : Action) :
  wf_heap h -> actions h !! l = Some obj ->
  Copy None h = Some (None, h) /\
  (exists na h' cp,
     Copy (Some l) h = Some (Some na, h') /\
     na <> l /\ actions h !! na = None /\
     actions h' !! na = Some cp /\
     Name cp = Name obj /\ Command cp = Command obj /\
     args_elems h' (Args cp) = args_elems h (Args obj) /\
     Equal (Some l) (Some na) h' = Some true /\
     actions h' !! l = Some obj /\ read_args l h' = read_args l h /\
     (forall i v xs, read_args na h' = Some xs -> i < length xs ->
        is_Some (set_arg (Some na) i v h')) /\
     (forall i v h'', set_arg (Some na) i v h' = Some h'' ->
        actions h'' !! l = Some obj /\
        read_args l h'' = read_args l h /\
        read_args na h'' = (fun xs => <[i := v]> xs) <$> read_args na h')) /\
  Equal None None h = Some true /\
  Equal (Some l) None h = Some false /\
  Equal None (Some l) h = Some false.
Proof.
  intros Hwf Hl.
  split; [reflexivity|]. split; [|repeat split; reflexivity].
  destruct (Copy_result h l obj Hwf Hl) as (args' & ar' & HC & Hcase).
  pose proof (fresh_action_unused h) as Hna.
  pose proof (fresh_array_unused h) as Hb.
  set (na := fresh (dom (actions h))) in *.
  set (b := fresh (dom (arrays h))) in *.
  assert (Hne : na <> l) by congruence.
  destruct (Hwf l obj Hl) as [ys Hys].
  eexists na, _, _. split; [exact HC|].
  split; [assumption|]. split; [assumption|].
  simpl. split; [apply lookup_insert_eq|]. simpl.
  split; [reflexivity|]. split; [reflexivity|].
  assert (Hl' : forall ac : Action, <[na := ac]> (actions h) !! l = Some obj).
  { intros ac. rewrite lookup_insert_ne by assumption. exact Hl. }
  unfold Equal, read_args, set_arg. simpl.
  rewrite Hl', Hl, lookup_insert_eq. simpl.
  destruct (decide (Some l = Some na)) as [E|_]; [congruence|].
  rewrite !bool_decide_eq_true_2 by reflexivity.
  unfold slices_Equal.
  destruct Hcase as [(HA & -> & ->) | (s & xs & HA & Hs & -> & ->)].
  - (* nil arguments *)
    rewrite HA in *. simpl.
    repeat split; try reflexivity; try discriminate.
    intros i v xs [= <-] Hi. simpl in Hi. lia.
  - (* a slice: the copy's array is fresh *)
    rewrite HA in *. simpl in Hys. rewrite Hs in Hys. injection Hys as <-.
    assert (Horig : forall ar ac zs, ar !! b = None -> ar = arrays h ->
               slice_elems (Heap (<[b := zs]> ar) ac) s = Some xs).
    { intros ar ac zs _ ->.
      change (args_elems (Heap (<[b := zs]> (arrays h)) ac) (Some s) = Some xs).
      rewrite args_elems_insert_other; [exact Hs | exact Hb |].
      simpl. rewrite Hs. eauto. }
    simpl. rewrite slice_elems_whole, Hs.
    rewrite (Horig (arrays h) _ xs Hb eq_refl).
    rewrite bool_decide_eq_true_2 by reflexivity.
    repeat split; try reflexivity.
    + intros i v zs [= <-] Hi. unfold slice_set. simpl.
      rewrite lookup_insert_eq. case_decide; [eauto | lia].
    + unfold slice_set in H. simpl in H. rewrite lookup_insert_eq in H.
      case_decide; [|discriminate]. injection H as <-. simpl.
      rewrite lookup_insert_ne by assumption. exact Hl.
    + unfold slice_set in H. simpl in H. rewrite lookup_insert_eq in H.
      case_decide; [|discriminate]. injection H as <-. simpl.
      rewrite lookup_insert_ne by assumption. rewrite Hl, HA. simpl.
      rewrite insert_insert_eq. apply (Horig (arrays h)); auto.
    + unfold slice_set in H. simpl in H. rewrite lookup_insert_eq in H.
      case_decide as Hd; [|discriminate]. injection H as <-. simpl.
      rewrite lookup_insert_eq. simpl. rewrite insert_insert_eq.
      unfold slice_elems. simpl. rewrite lookup_insert_eq.
      rewrite length_insert. case_decide; [|lia].
      rewrite drop_0, <- (length_insert xs i v), firstn_all. reflexivity.
Qed.

(** C9.  [a.Copy()] is nil for a nil [a]; otherwise it is a new [Action]
    (at an address unused before) with the same [Name], [Command] and
    argument list, [Equal] to [a], and its [Args] live in storage of their
    own: every write through the copy's [Args] succeeds within the bounds
    and leaves the original and what its [Args] denote unchanged, and
    after a write that changes an element the copy is no longer [Equal]
    to the original.  [Equal] is value-based: true on two nils, false
    when exactly one operand is nil, and on two objects true exactly
    when the names, the commands and the argument lists are equal, and
    false otherwise. *)
Theorem Action_Copy_Equal_value_based (h : heap) (l : loc) (obj : Action) :
  wf_heap h -> actions h !! l = Some obj ->
  Copy None h = Some (None, h) /\
  (exists na h' cp,
     Copy (Some l) h = Some (Some na, h') /\
     na <> l /\ actions h !! na = None /\
     actions h' !! na = Some cp /\
     Name cp = Name obj /\ Command cp = Command obj /\
     args_elems h' (Args cp) = args_elems h (Args obj) /\
     Equal (Some l) (Some na) h' = Some true /\
     actions h' !! l = Some obj /\ read_args l h' = read_args l h /\
     (forall i v xs, read_args na h' = Some xs -> i < length xs ->
        is_Some (set_arg (Some na) i v h')) /\
     (forall i v h'', set_arg (Some na) i v h' = Some h'' ->
        actions h'' !! l = Some obj /\
        read_args l h'' = read_args l h /\
        read_args na h'' = (fun xs => <[i := v]> xs) <$> read_args na h') /\
     (forall i v h'' xs, set_arg (Some na) i v h' = Some h'' ->
        read_args na h' = Some xs -> xs !! i <> Some v ->
        Equal (Some l) (Some na) h'' = Some false)) /\
  Equal None None h = Some true /\
  Equal (Some l) None h = Some false /\
  Equal None (Some l) h = Some false /\
  (forall lo y, actions h !! lo = Some y ->
     (Equal (Some l) (Some lo) h = Some true <->
      Name obj = Name y /\ Command obj = Command y /\
      args_elems h (Args obj) = args_elems h (Args y)) /\
     (Equal (Some l) (Some lo) h = Some true \/
      Equal (Some l) (Some lo) h = Some false)).
Proof.
  intros Hwf Hl.
  destruct (Copy_Equal_copy h l obj Hwf Hl)
    as (H0 & (na & h' & cp & HC & Hne & Hfresh & Hcp & Hn & Hc & Hargs & HE
              & Hl' & Hr & Hset & Hmut) & HN1 & HN2 & HN3).
  split; [exact H0|]. split; [|split; [exact HN1|split; [exact HN2|split;
    [exact HN3|]]]].
  - exists na, h', cp. repeat (split; [assumption|]).
    intros i v h'' xs Hs Hxs Hdiff.
    destruct (Hmut i v h'' Hs) as (Hl'' & Hrl & Hrna).
    rewrite Hxs in Hrna. simpl in Hrna.
    assert (Hxs0 : args_elems h (Args obj) = Some xs).
    { rewrite <- Hargs. unfold read_args in Hxs. rewrite Hcp in Hxs.
      exact Hxs. }
    unfold read_args in Hrl, Hrna. rewrite Hl'' in Hrl. rewrite Hl in Hrl.
    rewrite Hxs0 in Hrl.
    destruct (actions h'' !! na) as [cp'|] eqn:Hcp'; [|discriminate].
    rewrite (Equal_objects h'' l na obj cp' Hl'' Hcp')
      by (rewrite ?Hrl, ?Hrna; eauto).
    rewrite Hrl, Hrna. f_equal.
    rewrite (bool_decide_eq_false_2 (Some xs = Some (<[i:=v]> xs))).
    + rewrite andb_false_r. reflexivity.
    + intros [= E]. apply Hdiff.
      assert (Hi : i < length xs).
      { unfold set_arg in Hs. rewrite Hcp in Hs. unfold slice_set in Hs.
        destruct (Args cp) as [sl|] eqn:EA; [|discriminate].
        destruct (arrays h' !! s_arr sl) as [arr|] eqn:Earr; [|discriminate].
        case_decide as Hd; [|discriminate].
        unfold read_args in Hxs. rewrite Hcp, EA in Hxs. simpl in Hxs.
        unfold slice_elems in Hxs. rewrite Earr in Hxs.
        case_decide; [|discriminate]. injection Hxs as <-.
        rewrite length_take, length_drop. lia. }
      rewrite E. apply list_lookup_insert_eq. exact Hi.
  - intros lo y Hy.
    rewrite (Equal_objects h l lo obj y Hl Hy (Hwf _ _ Hl) (Hwf _ _ Hy)).
    split.
    + split.
      * intros [= H]. rewrite !andb_true_iff, !bool_decide_eq_true in H. tauto.
      * intros (H1 & H2 & H3). f_equal.
        rewrite !andb_true_iff, !bool_decide_eq_true. auto.
    + destruct (_ && _ && _); auto.
Qed.

End ActionProofs.

(** ** The legacy topology *)

Section LegacyProofs.
Import Numa.

Variable MHz : Z -> Z.
Variable CoreID : Z -> Z.

(** C10.  With at least one reservable core the per-core frequency
    [CpuShares / len(ReservableCpuCores)] is defined and
    [topologyFromLegacy] returns a topology with one core per reservable
    core ID, each with that frequency; with no reservable core the
    division panics.  An input that [empty()] does not screen out has at
    least one reservable core. *)
Theorem topologyFromLegacy_needs_reservable_cores
  (old : LegacyNodeCpuResources) :
  (0 < length (ReservableCpuCores old) ->
   exists t,
     topologyFromLegacy MHz CoreID old = Some t /\
     length (Cores t) = length (ReservableCpuCores old) /\
     map ID (Cores t) = map CoreID (ReservableCpuCores old) /\
     Forall (fun c => GuessSpeed c =
                      MHz (Z.quot (CpuShares old)
                             (Z.of_nat (length (ReservableCpuCores old)))))
            (Cores t)) /\
  (length (ReservableCpuCores old) = 0 ->
   topologyFromLegacy MHz CoreID old = None) /\
  (empty old = false -> is_Some (topologyFromLegacy MHz CoreID old)).
Proof.
  unfold topologyFromLegacy, int64_div, ConvertSlice.
  split; [|split].
  - intros Hlen.
    destruct (Z.eqb_spec (Z.of_nat (length (ReservableCpuCores old))) 0)
      as [E|_]; [lia|].
    eexists. split; [reflexivity|]. simpl.
    rewrite length_map, map_map. simpl.
    repeat split. apply Forall_forall. intros c Hc.
    apply list_elem_of_In, in_map_iff in Hc. destruct Hc as (id & <- & _).
    reflexivity.
  - intros ->. reflexivity.
  - unfold empty. intros He.
    apply orb_false_iff in He as [_ He]. apply Nat.eqb_neq in He.
    destruct (Z.eqb_spec (Z.of_nat (length (ReservableCpuCores old))) 0)
      as [E|_]; [lia|]. eauto.
Qed.

End LegacyProofs.

(** ** The [action] command *)

Section CommandProofs.
Import Command.

Context {Allocation : Type}.
Variable env : Env Allocation.

Ltac run_unfold :=
  unfold Run, execImpl, call, Run_body, execImpl_body, bind, when, fail1,
    emit, return_, ret, callee, act, defer.

(** C2.  [-t] with [-i=false] ends the command with exit code 1 after a
    single error message: nothing else happens, so no client is created,
    no target is resolved and no session is opened.  When an action name
    and a job are given, the message is the one of the [-t]/[-i] check. *)
Theorem Run_tty_requires_stdin (l : ActionCommand) (f : Flags) (s : State) :
  ttyOpt f = true -> stdinOpt f = false ->
  exists msg,
    Run env l (inr f) s = (1%Z, s, [UiError msg]) /\
    (args f <> [] -> job f <> "" ->
     msg = "-i must be enabled if running with tty").
Proof.
  intros Ht Hi. run_unfold. rewrite Ht, Hi. simpl.
  destruct (args f) as [|a rest]; simpl.
  - eexists; split; [reflexivity | congruence].
  - destruct (String.eqb_spec (job f) "") as [E|E]; simpl.
    + eexists; split; [reflexivity | congruence].
    + eexists; split; [reflexivity | reflexivity].
Qed.

(** *** The session loop *)

Abbreviation sess := (session (Allocation := Allocation)).
Abbreviation on_irq := (on_interrupt (Allocation := Allocation)).
Abbreviation callback := (escape_callback (Allocation := Allocation)).
Abbreviation rel := (release (Allocation := Allocation)).

Lemma session_app_eq (stdin : option Reader) (stderr : Writer)
  (i : Interrupt) (irqs : list Interrupt) (s : State) :
  sess stdin stderr (i :: irqs) s =
  (fst (sess stdin stderr irqs (fst (on_irq stdin stderr i s))),
   (snd (on_irq stdin stderr i s)
    ++ snd (sess stdin stderr irqs (fst (on_irq stdin stderr i s))))%list).
Proof.
  simpl. destruct (on_irq stdin stderr i s) as [s1 e1]. simpl.
  destruct (sess stdin stderr irqs s1) as [s2 e2]. reflexivity.
Qed.

(** The events of one interrupt: the callback's four on an escape abort,
    one cancellation on a signal, nothing otherwise. *)
Lemma on_interrupt_events (stdin : option Reader) (stderr : Writer)
  (i : Interrupt) (s : State) :
  snd (on_irq stdin stderr i s) =
  match i with
  | OsSignal => [EvCancel]
  | EscapeByte c =>
      if escaping stdin && Ascii.eqb c "."%char
      then [EvRelease TermOut; EvRelease TermIn; EvWrite stderr notice; EvCancel]
      else []
  end.
Proof.
  destruct i as [c|]; [|reflexivity].
  destruct stdin as [[r|r e]|]; simpl; try reflexivity.
  unfold escape_callback. destruct (Ascii.eqb c "."); reflexivity.
Qed.

Lemma session_is_local (stdin : option Reader) (stderr : Writer)
  (irqs : list Interrupt) (s : State) :
  forallb is_local (snd (sess stdin stderr irqs s))
  = true.
Proof.
  revert s. induction irqs as [|i irqs IH]; intros s; [reflexivity|].
  rewrite session_app_eq. simpl. rewrite forallb_app, IH, on_interrupt_events.
  destruct i as [c|]; [|reflexivity].
  destruct (escaping stdin && Ascii.eqb c "."); reflexivity.
Qed.

Lemma session_acquisitions (stdin : option Reader) (stderr : Writer)
  (irqs : list Interrupt) (s : State) :
  acquisitions (snd (sess stdin stderr irqs s)) = [].
Proof.
  revert s. induction irqs as [|i irqs IH]; intros s; [reflexivity|].
  rewrite session_app_eq. simpl. unfold acquisitions in *.
  rewrite flat_map_app, IH, on_interrupt_events, app_nil_r.
  destruct i as [c|]; [|reflexivity].
  destruct (escaping stdin && Ascii.eqb c "."); reflexivity.
Qed.

(** The release calls made while the remote call runs: output then input
    restore, once per escape abort. *)
Lemma session_releases (stdin : option Reader) (stderr : Writer)
  (irqs : list Interrupt) (s : State) :
  releases (snd (sess stdin stderr irqs s)) =
  flat_map (fun i => if escaping stdin && is_escape_dot i
                     then [TermOut; TermIn] else []) irqs.
Proof.
  revert s. induction irqs as [|i irqs IH]; intros s; [reflexivity|].
  rewrite session_app_eq. simpl. unfold releases in *.
  rewrite flat_map_app, IH, on_interrupt_events. f_equal.
  destruct i as [c|]; simpl; [|rewrite andb_false_r; reflexivity].
  destruct (escaping stdin && Ascii.eqb c "."); reflexivity.
Qed.

(** The notices written while the remote call runs: one per escape abort. *)
Lemma session_notices (stdin : option Reader) (stderr : Writer)
  (irqs : list Interrupt) (s : State) :
  length (List.filter is_notice
            (snd (sess stdin stderr irqs s))) =
  if escaping stdin then length (List.filter is_escape_dot irqs) else 0.
Proof.
  revert s. induction irqs as [|i irqs IH]; intros s.
  - destruct (escaping stdin); reflexivity.
  - rewrite session_app_eq. simpl.
    rewrite List.filter_app, length_app, IH, on_interrupt_events.
    destruct i as [c|]; simpl.
    + destruct (escaping stdin); simpl; [|reflexivity].
      destruct (Ascii.eqb c "."); reflexivity.
    + destruct (escaping stdin); reflexivity.
Qed.

Lemma session_final_state (stdin : option Reader) (stderr : Writer)
  (irqs : list Interrupt) (s : State) :
  let s' := fst (sess stdin stderr irqs s) in
  (in_raw s' = in_raw s \/ in_raw s' = saved_in s) /\
  (out_raw s' = out_raw s \/ out_raw s' = saved_out s) /\
  watching s' = watching s /\
  (cancelled s = true -> cancelled s' = true) /\
  saved_in s' = saved_in s /\ saved_out s' = saved_out s.
Proof.
  revert s. induction irqs as [|i irqs IH]; intros s; [simpl; tauto|].
  rewrite session_app_eq. simpl.
  specialize (IH (fst (on_irq stdin stderr i s))).
  simpl in IH. destruct IH as (H1 & H2 & H3 & H4 & H5 & H6).
  assert (Hstep :
    let s1 := fst (on_irq stdin stderr i s) in
    (in_raw s1 = in_raw s \/ in_raw s1 = saved_in s) /\
    (out_raw s1 = out_raw s \/ out_raw s1 = saved_out s) /\
    watching s1 = watching s /\
    (cancelled s = true -> cancelled s1 = true) /\
    saved_in s1 = saved_in s /\ saved_out s1 = saved_out s).
  { destruct i as [c|]; simpl; [|tauto].
    destruct stdin as [[r|r e]|]; simpl; try tauto.
    unfold escape_callback. destruct (Ascii.eqb c "."); simpl; tauto. }
  simpl in Hstep. destruct Hstep as (G1 & G2 & G3 & G4 & G5 & G6).
  rewrite H3, H5, H6, G3, G5, G6. rewrite G5 in H1. rewrite G6 in H2.
  repeat split; auto.
  - destruct H1 as [H1|H1]; [rewrite H1; exact G1 | auto].
  - destruct H2 as [H2|H2]; [rewrite H2; exact G2 | auto].
Qed.

(** *** [execImpl] *)

(** Case analysis along the control flow of [execImpl] and [Run]: the
    scrutinee is a variable or the answer of a collaborator. *)
Ltac flow_step :=
  match goal with
  | |- context [match ?x with _ => _ end] =>
      first
        [ is_var x
        | lazymatch x with
          | setRawTerminal _ _ => idtac
          | setRawTerminalOutput _ _ => idtac
          | watchTerminalSize _ _ => idtac
          | ActionExec _ _ => idtac
          | session _ _ _ _ => idtac
          | MetaClient _ => idtac
          | JobIDByPrefix _ _ => idtac
          | getRandomJobAlloc _ _ _ _ => idtac
          | PrefixList _ _ => idtac
          | AllocInfo _ _ _ => idtac
          | validateTaskExistsInAllocation _ _ _ => idtac
          | lookupAllocTask _ _ => idtac
          end ];
      destruct x eqn:?; simpl
  end.

Ltac exec_cases :=
  unfold execImpl, call, execImpl_body, bind, emit, return_, ret, act, defer;
  simpl; repeat flow_step.

(** A release is idempotent on the state, and undoes its set-up. *)
Lemma release_idempotent (r : Resource) (s : State) :
  fst (rel r
         (fst (rel r s)))
  = fst (rel r s)
  /\ held r (fst (rel r (fst (acquire (Allocation := Allocation) r s))))
     = match r with SizeWatch => false | _ => held r s end.
Proof. destruct r; split; reflexivity. Qed.

(** C1.  The callback wired into the escaping reader: on ['.'] it restores
    the output and the input terminal to their saved modes, writes the
    notice, cancels the context and returns true; on any other byte it
    returns false and does nothing.  It is the callback that runs when
    the escaping reader reports a byte; after the set-up of [execImpl]
    the modes it restores are those from before the set-up. *)
Theorem escape_callback_dot_aborts (stderr : Writer) (c : ascii) (s : State) :
  (c = "."%char ->
   callback stderr c s =
   (true,
    mkState (saved_in s) (saved_out s) (watching s) true
      (saved_in s) (saved_out s),
    [EvRelease TermOut; EvRelease TermIn; EvWrite stderr notice; EvCancel])) /\
  (c <> "."%char ->
   callback stderr c s = (false, s, [])) /\
  (forall r e,
     on_irq (Some (EscapingReader r e)) stderr (EscapeByte c) s =
     (snd (fst (callback stderr c s)),
      snd (callback stderr c s))) /\
  (let set_up :=
     fst (acquire (Allocation := Allocation) SizeWatch
            (fst (acquire (Allocation := Allocation) TermOut
                    (fst (acquire (Allocation := Allocation) TermIn s))))) in
   let after := snd (fst (callback stderr "."%char set_up)) in
   in_raw set_up = true /\ out_raw set_up = true /\
   in_raw after = in_raw s /\ out_raw after = out_raw s /\
   cancelled after = true).
Proof.
  split; [|split; [|split]].
  - intros ->. reflexivity.
  - intros Hc. unfold escape_callback.
    destruct (Ascii.eqb_spec c "."); [contradiction | reflexivity].
  - intros r e. simpl.
    destruct (callback stderr c s) as [[b s1] ev]. reflexivity.
  - simpl. repeat split.
Qed.

Lemma local_not_exec (l : list (Event Allocation)) (a : ExecArgs Allocation) :
  forallb is_local l = true -> ~ In (EvActionExec a) l.
Proof.
  intros Hl Hin. rewrite forallb_forall in Hl.
  apply Hl in Hin. discriminate.
Qed.

Lemma local_not_error (l : list (Event Allocation)) (msg : string) :
  forallb is_local l = true -> ~ In (UiError msg) l.
Proof.
  intros Hl Hin. rewrite forallb_forall in Hl.
  apply Hl in Hin. discriminate.
Qed.

(** What is known of a finished session loop. *)
Ltac sess_facts :=
  match goal with
  | H : session ?i ?w ?l ?s = (?s0, ?l0) |- _ =>
      let F1 := fresh "Hloc" in
      let F2 := fresh "Hacq" in
      let F3 := fresh "Hrel" in
      let F4 := fresh "Hnot" in
      let F5 := fresh "Hfin" in
      pose proof (session_is_local i w l s) as F1;
      pose proof (session_acquisitions i w l s) as F2;
      pose proof (session_releases i w l s) as F3;
      pose proof (session_notices i w l s) as F4;
      pose proof (session_final_state i w l s) as F5;
      rewrite H in F1, F2, F3, F4, F5; cbn [fst snd] in F1, F2, F3, F4, F5
  end.

(** Membership in a run's event list, case by case. *)
Ltac in_cases H :=
  repeat first
    [ apply in_app_or in H; destruct H as [H|H]
    | destruct H as [H|H]; [try discriminate H |]
    | contradiction H ].





Lemma session_notice_shape (stdin : option Reader) (stderr : Writer)
  (irqs : list Interrupt) (s : State) (e : Event Allocation) :
  In e (snd (sess stdin stderr irqs s)) -> is_notice e = true ->
  e = EvWrite stderr notice.
Proof.
  revert s. induction irqs as [|i irqs IH]; intros s; [intros []|].
  rewrite session_app_eq. cbn [snd]. rewrite on_interrupt_events.
  intros He Hn. apply in_app_or in He as [He|He]; [|eauto].
  destruct i as [c|].
  - destruct (escaping stdin && Ascii.eqb c "."); [|destruct He].
    in_cases He; subst; try discriminate Hn. reflexivity.
  - in_cases He; subst; discriminate Hn.
Qed.

(** C6.  [execImpl] writes the notice only in the callback of the escaping
    reader: a run that reaches the remote call writes it once per escape
    abort (escape character, then ['.']) and never when stdin is not the
    escaping reader; a run that does not reach the remote call writes
    none.  An interrupt or terminate signal cancels the context and
    writes nothing. *)
Theorem notice_only_on_escape_abort (alloc : Allocation)
  (task job action : string) (tty : bool) (esc : string)
  (stdin : option Source) (stdout stderr : Writer) (s : State) :
  let '(r, s', ev) :=
    execImpl env alloc task job action tty esc stdin stdout stderr s in
  (forall a, In (EvActionExec a) ev ->
     length (List.filter is_notice ev) =
     if escaping (ea_stdin a)
     then length (List.filter is_escape_dot (fst (ActionExec env a)))
     else 0) /\
  ((forall a, ~ In (EvActionExec a) ev) -> List.filter is_notice ev = []) /\
  (forall e, In e ev -> is_notice e = true -> e = EvWrite stderr notice) /\
  (forall rd w st,
     on_irq rd w OsSignal st =
     (mkState (in_raw st) (out_raw st) (watching st) true
        (saved_in st) (saved_out st), [EvCancel])).
Proof.
  exec_cases; try sess_facts; rewrite ?app_nil_r.
  all: rewrite ?List.filter_app, ?length_app; cbn [List.filter is_notice app length].
  all: split; [| split; [| split; [| reflexivity ] ] ].
  all: try (intros ? Ha; solve [in_cases Ha]).
  all: try (intros _; reflexivity).
  all: try (intros ? Ha; in_cases Ha;
            [ injection Ha as <-; rewrite Heqp; cbn [ea_stdin fst];
              rewrite Nat.add_0_r; exact Hnot
            | exfalso; eapply local_not_exec; eassumption ]).
  all: try (intros Hno; exfalso; eapply Hno; simpl; eauto 10).
  all: intros ev He Hn; in_cases He; subst; try discriminate Hn.
  all: eapply session_notice_shape; [erewrite Heqp0; exact He | exact Hn].
Qed.

(** *** [Run] *)

Ltac run_unfold_all :=
  unfold Run, call, Run_body, bind, when, fail1, emit, return_, ret, callee;
  simpl.

Ltac run_unfold_in H :=
  unfold Run, call, Run_body, bind, when, fail1, emit, return_, ret, callee
    in H; simpl in H.

(** How [execImpl] ends: on a failed set-up with -1 and an error, without
    a remote call; otherwise with the answer of its one remote call.  It
    reports nothing on the Ui. *)
Lemma execImpl_result (alloc : Allocation) (task job action : string)
  (tty : bool) (esc : string) (stdin : option Source) (stdout stderr : Writer)
  (s : State) :
  let '(r, s', ev) :=
    execImpl env alloc task job action tty esc stdin stdout stderr s in
  (forall msg, ~ In (UiError msg) ev) /\
  ((exists err, r = ((-1)%Z, Some err) /\ tty = true /\
      forall a, ~ In (EvActionExec a) ev) \/
   (let a := mkExecArgs alloc task tty action (session_stdin tty esc stdin)
               stdout stderr in
    In (EvActionExec a) ev /\ r = snd (ActionExec env a) /\
    forall a', In (EvActionExec a') ev -> a' = a)).
Proof.
  exec_cases; try sess_facts; rewrite ?app_nil_r.
  all: split;
    [ intros msg Hm; in_cases Hm; eapply local_not_error; eassumption | ].
  all: try (left; eexists; split; [reflexivity|]; split; [reflexivity|];
            intros ? Ha; solve [in_cases Ha]).
  all: right; cbv zeta; cbn [session_stdin].
  all: split; [simpl; auto 10|]; split; [reflexivity|].
  all: intros ? Ha; in_cases Ha;
    [ injection Ha as <-; reflexivity
    | exfalso; eapply local_not_exec; eassumption ].
Qed.

(** From the flags to the call of [execImpl]: with valid flags and a
    target that resolves, [Run] queries the allocation and reports the
    error of the query, the task error, or ends as [execImpl] does. *)
Lemma Run_resolved (l : ActionCommand) (f : Flags) (s : State)
  (stub : AllocationListStub) :
  valid_flags f -> resolves env f stub ->
  Run env l (inr f) s =
  match AllocInfo env (stub_ID stub) (stub_Namespace stub) with
  | inl err =>
      (1%Z, s, (resolution_events env f stub
                ++ [UiError ("Error querying allocation: " ++ err)])%list)
  | inr alloc =>
      match resolve_task env f alloc with
      | inl err =>
          (1%Z, s, (resolution_events env f stub ++ [UiError err])%list)
      | inr t =>
          exit_of_exec (resolution_events env f stub)
            (execImpl env alloc t (job f) (hd "" (args f)) (ttyOpt f)
               (escape_of f) (stdin_of l f) (stdout_of l) (stderr_of l) s)
      end
  end.
Proof.
  intros (Hargs & Hjob & Htty & Hesc) (Hcl & Hres).
  unfold resolve_task, resolution_events, exit_of_exec.
  run_unfold_all.
  destruct (args f) as [|a0 rest] eqn:Ea; [contradiction|]. simpl.
  apply String.eqb_neq in Hjob. rewrite Hjob. simpl.
  assert (Hti : ttyOpt f && negb (stdinOpt f) = false).
  { destruct (ttyOpt f); [rewrite Htty by reflexivity|]; reflexivity. }
  rewrite Hti. simpl.
  fold (escape_of f).
  assert (Hlen : (1 <? String.length (escape_of f))%nat = false)
    by (apply Nat.ltb_ge; exact Hesc).
  rewrite Hlen, Hcl. simpl.
  unfold stdin_of, stdout_of, stderr_of.
  destruct Hres as [(Ha & Hg & Ht & jobID & ns & HJ & HR) | (Ha & HP)].
  - rewrite Ha. simpl.
    apply String.eqb_neq in Hg, Ht. rewrite Hg, Ht. simpl.
    rewrite HJ. simpl. rewrite HR. simpl.
    destruct (AllocInfo env (stub_ID stub) (stub_Namespace stub))
      as [err|alloc]; simpl; [reflexivity|].
    destruct (validateTaskExistsInAllocation env (task f) alloc) as [err|];
      simpl; [reflexivity|].
    destruct (execImpl _ _ _ _ _ _ _ _ _ _ _) as [[[c [err|]] s'] ev];
      simpl; rewrite ?app_nil_r; reflexivity.
  - apply String.eqb_neq in Ha. rewrite Ha. simpl.
    rewrite HP. simpl.
    destruct (AllocInfo env (stub_ID stub) (stub_Namespace stub))
      as [err|alloc]; simpl; [reflexivity|].
    destruct (task f =? "") eqn:Et; simpl.
    + destruct (lookupAllocTask env alloc) as [err|t]; simpl; [reflexivity|].
      destruct (execImpl _ _ _ _ _ _ _ _ _ _ _) as [[[c [err|]] s'] ev];
        simpl; rewrite ?app_nil_r; reflexivity.
    + destruct (validateTaskExistsInAllocation env (task f) alloc) as [err|];
        simpl; [reflexivity|].
      destruct (execImpl _ _ _ _ _ _ _ _ _ _ _) as [[[c [err|]] s'] ev];
        simpl; rewrite ?app_nil_r; reflexivity.
Qed.

Lemma resolution_events_rpc (f : Flags) (stub : AllocationListStub) :
  forallb is_rpc (resolution_events env f stub) = true.
Proof.
  unfold resolution_events.
  destruct (allocation f =? ""); [|reflexivity].
  destruct (JobIDByPrefix env (job f)) as [err|[jobID ns]]; reflexivity.
Qed.

(** Every run of [Run] on parsed flags either stops before the call of
    [execImpl], with exit code 1, the state untouched and an error
    message as its last event after client events only, or has valid
    flags, a resolved target, an allocation and a task (and then ends as
    [Run_resolved] says). *)
Lemma Run_cases (l : ActionCommand) (f : Flags) (s : State) :
  (exists pre msg,
     Run env l (inr f) s = (1%Z, s, (pre ++ [UiError msg])%list) /\
     forallb is_rpc pre = true /\
     (valid_flags f -> hd_error pre = Some EvMetaClient)) \/
  (exists stub alloc t,
     valid_flags f /\ resolves env f stub /\
     AllocInfo env (stub_ID stub) (stub_Namespace stub) = inr alloc /\
     resolve_task env f alloc = inr t).
Proof.
  remember (Run env l (inr f) s) as X eqn:HX.
  assert (Hfail : forall pre msg,
     X = (1%Z, s, (pre ++ [UiError msg])%list) ->
     forallb (is_rpc (Allocation := Allocation)) pre = true ->
     (valid_flags f -> hd_error pre = Some EvMetaClient) ->
     (exists pre' msg',
        X = (1%Z, s, (pre' ++ [UiError msg'])%list) /\
        forallb (is_rpc (Allocation := Allocation)) pre' = true /\
        (valid_flags f -> hd_error pre' = Some EvMetaClient)) \/
     (exists stub alloc t,
        valid_flags f /\ resolves env f stub /\
        AllocInfo env (stub_ID stub) (stub_Namespace stub) = inr alloc /\
        resolve_task env f alloc = inr t)).
  { intros pre msg HXe Hp Hh. left. exists pre, msg. auto. }
  destruct (args f) as [|a0 rest] eqn:Ea.
  { run_unfold_in HX. rewrite Ea in HX. simpl in HX.
    apply (Hfail [] _ HX); [reflexivity|].
    intros (Hc & _). rewrite Ea in Hc. contradiction. }
  destruct (job f =? "") eqn:Ej.
  { run_unfold_in HX. rewrite Ea, Ej in HX. simpl in HX.
    apply (Hfail [] _ HX); [reflexivity|].
    intros (_ & Hc & _). apply String.eqb_eq in Ej. contradiction. }
  destruct (ttyOpt f && negb (stdinOpt f)) eqn:Et.
  { run_unfold_in HX. rewrite Ea, Ej, Et in HX. simpl in HX.
    apply (Hfail [] _ HX); [reflexivity|].
    intros (_ & _ & Hc & _). apply andb_true_iff in Et as [Et1 Et2].
    rewrite (Hc Et1) in Et2. discriminate. }
  destruct (1 <? String.length (escape_of f))%nat eqn:Ee.
  { run_unfold_in HX. rewrite Ea, Ej, Et in HX. simpl in HX.
    fold (escape_of f) in HX. rewrite Ee in HX. simpl in HX.
    apply (Hfail [] _ HX); [reflexivity|].
    intros (_ & _ & _ & Hc). apply Nat.ltb_lt in Ee. lia. }
  assert (Hv : valid_flags f).
  { unfold valid_flags. rewrite Ea. repeat split; [discriminate | | |].
    - apply String.eqb_neq. exact Ej.
    - intros Ht. rewrite Ht in Et. simpl in Et.
      destruct (stdinOpt f); [reflexivity | discriminate].
    - apply Nat.ltb_ge. exact Ee. }
  assert (Hres : forall stub, resolves env f stub ->
     (exists pre' msg',
        X = (1%Z, s, (pre' ++ [UiError msg'])%list) /\
        forallb (is_rpc (Allocation := Allocation)) pre' = true /\
        (valid_flags f -> hd_error pre' = Some EvMetaClient)) \/
     (exists stub alloc t,
        valid_flags f /\ resolves env f stub /\
        AllocInfo env (stub_ID stub) (stub_Namespace stub) = inr alloc /\
        resolve_task env f alloc = inr t)).
  { intros stub Hr. rewrite (Run_resolved l f s stub Hv Hr) in HX.
    destruct (AllocInfo env (stub_ID stub) (stub_Namespace stub))
      as [err|alloc] eqn:EI.
    - eapply Hfail; [exact HX | apply resolution_events_rpc | reflexivity].
    - destruct (resolve_task env f alloc) as [err|t] eqn:ET.
      + eapply Hfail; [exact HX | apply resolution_events_rpc | reflexivity].
      + right. exists stub, alloc, t. auto. }
  run_unfold_in HX. rewrite Ea, Ej, Et in HX. simpl in HX.
  fold (escape_of f) in HX. rewrite Ee in HX. simpl in HX.
  destruct (MetaClient env) as [err|] eqn:Ec; simpl in HX.
  { apply (Hfail [EvMetaClient] _ HX); reflexivity. }
  destruct (allocation f =? "") eqn:Eal; simpl in HX.
  - destruct (group f =? "") eqn:Eg; simpl in HX.
    { apply (Hfail [EvMetaClient] _ HX); reflexivity. }
    destruct (task f =? "") eqn:Etk; simpl in HX.
    { apply (Hfail [EvMetaClient] _ HX); reflexivity. }
    destruct (JobIDByPrefix env (job f)) as [err|[jobID ns]] eqn:EJ;
      simpl in HX.
    { apply (Hfail [EvMetaClient; EvJobIDByPrefix (job f)] _ HX); reflexivity. }
    destruct (getRandomJobAlloc env jobID (group f) ns) as [err|stub] eqn:ER;
      simpl in HX.
    { apply (Hfail [EvMetaClient; EvJobIDByPrefix (job f);
                    EvGetRandomJobAlloc jobID (group f) ns] _ HX); reflexivity. }
    apply (Hres stub). split; [exact Ec|]. left.
    apply String.eqb_eq in Eal. apply String.eqb_neq in Eg, Etk. eauto 10.
  - destruct (PrefixList env (sanitizeUUIDPrefix env (allocation f)))
      as [err|[|stub [|stub' more]]] eqn:EP; simpl in HX.
    + apply (Hfail [EvMetaClient; EvPrefixList _] _ HX); reflexivity.
    + apply (Hfail [EvMetaClient; EvPrefixList _] _ HX); reflexivity.
    + apply (Hres stub). split; [exact Ec|]. right.
      apply String.eqb_neq in Eal. auto.
    + apply (Hfail [EvMetaClient; EvPrefixList _] _ HX); reflexivity.
Qed.

Lemma rpc_not_exec (l : list (Event Allocation)) (a : ExecArgs Allocation) :
  forallb is_rpc l = true -> ~ In (EvActionExec a) l.
Proof.
  intros Hl Hin. rewrite forallb_forall in Hl.
  apply Hl in Hin. discriminate.
Qed.

Lemma rpc_not_error (l : list (Event Allocation)) (msg : string) :
  forallb is_rpc l = true -> ~ In (UiError msg) l.
Proof.
  intros Hl Hin. rewrite forallb_forall in Hl.
  apply Hl in Hin. discriminate.
Qed.

(** C4.  Whenever [Run] reports an error, of the flags, of the
    resolution, of the terminal set-up or of the session, its exit
    code is 1.  When it reports none, the session has run and the exit
    code is the one the remote call returned, unchanged.  In every run
    with a remote call the exit code is the remote one if the call
    returned no error and 1 otherwise. *)
Theorem Run_exit_code (l : ActionCommand) (parsed : error + Flags) (s : State) :
  let '(code, s', ev) := Run env l parsed s in
  (forall msg, In (UiError msg) ev -> code = 1%Z) /\
  ((forall msg, ~ In (UiError msg) ev) ->
   exists a, In (EvActionExec a) ev /\ snd (ActionExec env a) = (code, None)) /\
  (forall a, In (EvActionExec a) ev ->
   code = match snd (ActionExec env a) with
          | (c, None) => c
          | (_, Some _) => 1%Z
          end).
Proof.
  destruct parsed as [perr|f].
  { simpl. repeat split; [| intros a Ha; in_cases Ha].
    intros Hno. exfalso. eapply Hno. left. reflexivity. }
  destruct (Run_cases l f s)
    as [(pre & msg & -> & Hpre & _) | (stub & alloc & t & Hv & Hr & HI & HT)].
  { split; [reflexivity|]. split.
    - intros Hno. exfalso. apply (Hno msg), in_or_app. right. left. reflexivity.
    - intros a Ha. in_cases Ha. exfalso. eapply rpc_not_exec; eassumption. }
  rewrite (Run_resolved l f s stub Hv Hr), HI, HT.
  pose proof (resolution_events_rpc f stub) as Hpre.
  pose proof (execImpl_result alloc t (job f) (hd "" (args f)) (ttyOpt f)
                (escape_of f) (stdin_of l f) (stdout_of l) (stderr_of l) s)
    as Hex.
  destruct (execImpl _ _ _ _ _ _ _ _ _ _ _) as [[[c [err|]] s'] ev].
  - (* the session failed *)
    unfold exit_of_exec. destruct Hex as (Hnoerr & Hex).
    split; [reflexivity|]. split.
    + intros Hno. exfalso. eapply Hno.
      apply in_or_app. right. apply in_or_app. right. left. reflexivity.
    + intros a Ha. apply in_app_or in Ha as [Ha|Ha];
        [exfalso; eapply rpc_not_exec; eassumption|].
      apply in_app_or in Ha as [Ha|Ha]; [|in_cases Ha].
      destruct Hex as [(e' & _ & _ & Hnone) | (_ & Hres & Huniq)].
      * exfalso. eapply Hnone; eassumption.
      * rewrite (Huniq a Ha), <- Hres. reflexivity.
  - (* the session completed *)
    unfold exit_of_exec. destruct Hex as (Hnoerr & Hex).
    destruct Hex as [(e' & Hbad & _) | (Hin & Hres & Huniq)];
      [discriminate Hbad|].
    split; [|split].
    + intros m Hm. apply in_app_or in Hm as [Hm|Hm]; exfalso.
      * eapply rpc_not_error; eassumption.
      * eapply Hnoerr; eassumption.
    + intros _. eexists. split; [apply in_or_app; right; exact Hin|].
      symmetry. exact Hres.
    + intros a Ha. apply in_app_or in Ha as [Ha|Ha];
        [exfalso; eapply rpc_not_exec; eassumption|].
      rewrite (Huniq a Ha), <- Hres. reflexivity.
Qed.

(** The remote call of a run, if any: the flags were valid, the target
    resolved, and the arguments of the call are the allocation found, the
    task settled on and the streams of the command. *)
Lemma Run_exec_args (l : ActionCommand) (f : Flags) (s : State)
  (a : ExecArgs Allocation) :
  In (EvActionExec a) (snd (Run env l (inr f) s)) ->
  valid_flags f /\
  exists stub alloc t,
    resolves env f stub /\
    AllocInfo env (stub_ID stub) (stub_Namespace stub) = inr alloc /\
    resolve_task env f alloc = inr t /\
    a = mkExecArgs alloc t (ttyOpt f) (hd "" (args f))
          (session_stdin (ttyOpt f) (escape_of f) (stdin_of l f))
          (stdout_of l) (stderr_of l).
Proof.
  destruct (Run_cases l f s)
    as [(pre & msg & -> & Hpre & _) | (stub & alloc & t & Hv & Hr & HI & HT)].
  { cbn [snd]. intros Ha. in_cases Ha.
    exfalso. eapply rpc_not_exec; eassumption. }
  rewrite (Run_resolved l f s stub Hv Hr), HI, HT.
  pose proof (resolution_events_rpc f stub) as Hpre.
  pose proof (execImpl_result alloc t (job f) (hd "" (args f)) (ttyOpt f)
                (escape_of f) (stdin_of l f) (stdout_of l) (stderr_of l) s)
    as Hex.
  destruct (execImpl _ _ _ _ _ _ _ _ _ _ _) as [[[c oe] s'] ev].
  destruct Hex as (_ & Hex).
  assert (Hin : In (EvActionExec a) ev ->
                a = mkExecArgs alloc t (ttyOpt f) (hd "" (args f))
                      (session_stdin (ttyOpt f) (escape_of f) (stdin_of l f))
                      (stdout_of l) (stderr_of l)).
  { intros Ha. destruct Hex as [(e' & _ & _ & Hnone) | (_ & _ & Huniq)].
    - exfalso. eapply Hnone; eassumption.
    - apply Huniq. exact Ha. }
  intros Ha. split; [exact Hv|]. exists stub, alloc, t.
  split; [exact Hr|]. split; [exact HI|]. split; [exact HT|]. apply Hin.
  unfold exit_of_exec in Ha. destruct oe as [err|]; cbn [snd] in Ha.
  - apply in_app_or in Ha as [Ha|Ha];
      [exfalso; eapply rpc_not_exec; eassumption|].
    apply in_app_or in Ha as [Ha|Ha]; [exact Ha | in_cases Ha].
  - apply in_app_or in Ha as [Ha|Ha];
      [exfalso; eapply rpc_not_exec; eassumption | exact Ha].
Qed.

(** C5.  With an allocation ID or prefix given, valid flags and a
    client, the answer of the prefix list decides: no allocation is a
    not-found error and exit code 1; more than one is an
    ambiguous-prefix error that lists the candidates, and exit code 1;
    exactly one is the target, which [Run] queries next and hands to the
    remote call. *)
Theorem Run_allocation_prefix (l : ActionCommand) (f : Flags) (s : State)
  (allocs : list AllocationListStub) :
  valid_flags f -> MetaClient env = None -> allocation f <> "" ->
  PrefixList env (sanitizeUUIDPrefix env (allocation f)) = inr allocs ->
  match allocs with
  | [] =>
      Run env l (inr f) s =
      (1%Z, s,
       [EvMetaClient; EvPrefixList (sanitizeUUIDPrefix env (allocation f));
        UiError ("No allocation(s) with prefix or id "
                 ++ fmt_q env (allocation f) ++ " found")])
  | [stub] =>
      (exists code s' tl,
         Run env l (inr f) s =
         (code, s',
          EvMetaClient :: EvPrefixList (sanitizeUUIDPrefix env (allocation f))
          :: EvAllocInfo (stub_ID stub) (stub_Namespace stub) :: tl)) /\
      (forall a, In (EvActionExec a) (snd (Run env l (inr f) s)) ->
         AllocInfo env (stub_ID stub) (stub_Namespace stub)
         = inr (ea_alloc a))
  | _ :: _ :: _ =>
      Run env l (inr f) s =
      (1%Z, s,
       [EvMetaClient; EvPrefixList (sanitizeUUIDPrefix env (allocation f));
        UiError ("Prefix matched multiple allocations" ++ nl ++ nl
                 ++ formatAllocListStubs env allocs)])
  end.
Proof.
  intros Hv Hcl Hal HP.
  destruct allocs as [|stub [|stub' more]].
  - destruct Hv as (Hargs & Hjob & Htty & Hesc).
    run_unfold_all.
    destruct (args f) as [|a0 rest] eqn:Ea; [contradiction|]. simpl.
    apply String.eqb_neq in Hjob, Hal. rewrite Hjob. simpl.
    assert (Hti : ttyOpt f && negb (stdinOpt f) = false).
    { destruct (ttyOpt f); [rewrite Htty by reflexivity|]; reflexivity. }
    rewrite Hti. simpl. fold (escape_of f).
    assert (Hlen : (1 <? String.length (escape_of f))%nat = false)
      by (apply Nat.ltb_ge; exact Hesc).
    rewrite Hlen, Hcl. simpl. rewrite Hal. simpl. rewrite HP. reflexivity.
  - assert (Hr : resolves env f stub) by (split; [exact Hcl | right; auto]).
    split.
    + rewrite (Run_resolved l f s stub Hv Hr).
      unfold resolution_events. apply String.eqb_neq in Hal. rewrite Hal.
      cbn [app].
      destruct (AllocInfo env (stub_ID stub) (stub_Namespace stub))
        as [err|alloc]; [eauto|].
      destruct (resolve_task env f alloc) as [err|t]; [eauto|].
      destruct (execImpl _ _ _ _ _ _ _ _ _ _ _) as [[[c [err|]] s'] ev];
        cbn [exit_of_exec app]; eauto.
    + intros a Ha. apply Run_exec_args in Ha
        as (_ & stub0 & alloc & t & Hr0 & HI & _ & ->). cbn [ea_alloc].
      destruct Hr0 as (_ & [(Hc & _) | (_ & HP0)]); [contradiction|].
      rewrite HP in HP0. injection HP0 as <-. exact HI.
  - destruct Hv as (Hargs & Hjob & Htty & Hesc).
    run_unfold_all.
    destruct (args f) as [|a0 rest] eqn:Ea; [contradiction|]. simpl.
    apply String.eqb_neq in Hjob, Hal. rewrite Hjob. simpl.
    assert (Hti : ttyOpt f && negb (stdinOpt f) = false).
    { destruct (ttyOpt f); [rewrite Htty by reflexivity|]; reflexivity. }
    rewrite Hti. simpl. fold (escape_of f).
    assert (Hlen : (1 <? String.length (escape_of f))%nat = false)
      by (apply Nat.ltb_ge; exact Hesc).
    rewrite Hlen, Hcl. simpl. rewrite Hal. simpl. rewrite HP. reflexivity.
Qed.

(** C8.  With valid flags, a resolved target and its allocation found:
    a task flag is validated against the allocation and a failure ends
    the command with exit code 1, a success makes it the task of the
    session; without a task flag, which needs an allocation flag, the
    task is looked up in the allocation, a failure ending the command
    with exit code 1.  With neither an allocation nor both a group and a
    task the command reports an error and exits 1 once it has a client. *)
Theorem Run_task_resolution (l : ActionCommand) (f : Flags) (s : State) :
  valid_flags f ->
  (forall stub alloc,
     resolves env f stub ->
     AllocInfo env (stub_ID stub) (stub_Namespace stub) = inr alloc ->
     (task f <> "" ->
      match validateTaskExistsInAllocation env (task f) alloc with
      | Some err =>
          Run env l (inr f) s =
          (1%Z, s, (resolution_events env f stub ++ [UiError err])%list)
      | None =>
          Run env l (inr f) s =
          exit_of_exec (resolution_events env f stub)
            (execImpl env alloc (task f) (job f) (hd "" (args f)) (ttyOpt f)
               (escape_of f) (stdin_of l f) (stdout_of l) (stderr_of l) s)
      end) /\
     (task f = "" ->
      allocation f <> "" /\
      match lookupAllocTask env alloc with
      | inl err =>
          Run env l (inr f) s =
          (1%Z, s, (resolution_events env f stub ++ [UiError err])%list)
      | inr t =>
          Run env l (inr f) s =
          exit_of_exec (resolution_events env f stub)
            (execImpl env alloc t (job f) (hd "" (args f)) (ttyOpt f)
               (escape_of f) (stdin_of l f) (stdout_of l) (stderr_of l) s)
      end)) /\
  (MetaClient env = None -> allocation f = "" ->
   group f = "" \/ task f = "" ->
   exists msg, Run env l (inr f) s = (1%Z, s, [EvMetaClient; UiError msg])).
Proof.
  intros Hv. split.
  - intros stub alloc Hr HI.
    pose proof (Run_resolved l f s stub Hv Hr) as HR.
    rewrite HI in HR. unfold resolve_task in HR. split.
    + intros Ht. apply String.eqb_neq in Ht. rewrite Ht in HR. simpl in HR.
      destruct (validateTaskExistsInAllocation env (task f) alloc);
        exact HR.
    + intros Ht. split.
      * destruct Hr as (_ & [(_ & _ & Hc & _) | (Hal & _)]);
          [contradiction | exact Hal].
      * rewrite Ht in HR. simpl in HR.
        destruct (lookupAllocTask env alloc); exact HR.
  - intros Hcl Hal Hgt.
    destruct Hv as (Hargs & Hjob & Htty & Hesc).
    run_unfold_all.
    destruct (args f) as [|a0 rest] eqn:Ea; [contradiction|]. simpl.
    apply String.eqb_neq in Hjob. rewrite Hjob. simpl.
    assert (Hti : ttyOpt f && negb (stdinOpt f) = false).
    { destruct (ttyOpt f); [rewrite Htty by reflexivity|]; reflexivity. }
    rewrite Hti. simpl. fold (escape_of f).
    assert (Hlen : (1 <? String.length (escape_of f))%nat = false)
      by (apply Nat.ltb_ge; exact Hesc).
    rewrite Hlen, Hcl. simpl. rewrite Hal. simpl.
    destruct (group f =? "") eqn:Eg; simpl; [eauto|].
    destruct Hgt as [Hg|Ht].
    + rewrite Hg in Eg. discriminate.
    + rewrite Ht. simpl. eauto.
Qed.

(** X17.  With an action name, a job and consistent [-t] and
    [-i]: an escape flag other than ["none"] that is longer than one byte
    is an error, exit code 1, before anything else happens; ["none"] and
    every value of exactly one byte are accepted, and the command goes on
    to create its client.  In the remote call, stdin is handed on as it is
    when the flag is ["none"], which disables the escape; when the flag is
    one byte [c], stdin is the escaping reader on [c] in a session with a
    tty, and is handed on as it is without one. *)
Theorem Run_escape_char (l : ActionCommand) (f : Flags) (s : State) :
  args f <> [] -> job f <> "" -> (ttyOpt f = true -> stdinOpt f = true) ->
  (escapeChar f <> "none" -> 1 < String.length (escapeChar f) ->
   Run env l (inr f) s =
   (1%Z, s, [UiError "-e requires 'none' or a single character"])) /\
  (escapeChar f = "none" \/ String.length (escapeChar f) = 1 ->
   hd_error (snd (Run env l (inr f) s)) = Some EvMetaClient) /\
  (forall a, In (EvActionExec a) (snd (Run env l (inr f) s)) ->
     (escapeChar f = "none" ->
      ea_stdin a = option_map Direct (stdin_of l f)) /\
     (forall c, escapeChar f = String c "" ->
      ea_stdin a =
      if ttyOpt f
      then option_map (fun r => EscapingReader r c) (stdin_of l f)
      else option_map Direct (stdin_of l f))).
Proof.
  intros Hargs Hjob Htty. split; [|split].
  - intros Hn Hlen. run_unfold_all.
    destruct (args f) as [|a0 rest] eqn:Ea; [contradiction|]. simpl.
    apply String.eqb_neq in Hjob, Hn. rewrite Hjob. simpl.
    assert (Hti : ttyOpt f && negb (stdinOpt f) = false).
    { destruct (ttyOpt f); [rewrite Htty by reflexivity|]; reflexivity. }
    rewrite Hti, Hn. simpl.
    apply Nat.ltb_lt in Hlen. rewrite Hlen. reflexivity.
  - intros Hok.
    assert (Hv : valid_flags f).
    { repeat split; try assumption. unfold escape_of.
      destruct (String.eqb_spec (escapeChar f) "none") as [E|E];
        [simpl; lia|].
      destruct Hok as [Hok|Hok]; [contradiction | lia]. }
    destruct (Run_cases l f s)
      as [(pre & msg & -> & _ & Hhd) | (stub & alloc & t & _ & Hr & HI & HT)].
    + specialize (Hhd Hv). cbn [snd].
      destruct pre as [|e pre]; [discriminate | exact Hhd].
    + rewrite (Run_resolved l f s stub Hv Hr), HI, HT.
      destruct (execImpl _ _ _ _ _ _ _ _ _ _ _) as [[[c [err|]] s'] ev];
        reflexivity.
  - intros a Ha.
    apply Run_exec_args in Ha as (_ & stub & alloc & t & _ & _ & _ & ->).
    cbn [ea_stdin]. unfold session_stdin, escape_of. split.
    + intros E; rewrite E; simpl;
        destruct (ttyOpt f), (stdin_of l f); reflexivity.
    + intros c E. rewrite E.
      assert (Hne : (String c "" =? "none") = false)
        by (apply String.eqb_neq; discriminate).
      rewrite Hne. destruct (ttyOpt f), (stdin_of l f); reflexivity.
Qed.

(** *** More on [execImpl] and [Run] *)

(** Without the escaping reader the session loop leaves the terminal and
    the watcher alone, and calls no release. *)
Lemma session_direct_state (stdin : option Reader) (stderr : Writer)
  (irqs : list Interrupt) (s : State) :
  escaping stdin = false ->
  let s' := fst (sess stdin stderr irqs s) in
  in_raw s' = in_raw s /\ out_raw s' = out_raw s /\ watching s' = watching s.
Proof.
  intros He. revert s. induction irqs as [|i irqs IH]; intros s;
    [simpl; tauto|].
  rewrite session_app_eq. cbn [fst].
  specialize (IH (fst (on_irq stdin stderr i s))). cbv zeta in IH.
  destruct IH as (H1 & H2 & H3). rewrite H1, H2, H3.
  destruct i as [c|]; [|simpl; tauto].
  destruct stdin as [[r|r e]|]; simpl in *; try tauto. discriminate.
Qed.

(** The state [execImpl] leaves: the context is cancelled, by the last
    event, and nothing is held that was not held before. *)
Lemma execImpl_final_state (alloc : Allocation) (task job action : string)
  (tty : bool) (esc : string) (stdin : option Source) (stdout stderr : Writer)
  (s : State) :
  let '(r, s', ev) :=
    execImpl env alloc task job action tty esc stdin stdout stderr s in
  cancelled s' = true /\
  (exists ev', ev = (ev' ++ [EvCancel])%list) /\
  (in_raw s' = true -> in_raw s = true) /\
  (out_raw s' = true -> out_raw s = true) /\
  (watching s' = true -> watching s = true).
Proof.
  exec_cases; try sess_facts; rewrite ?app_nil_r.
  all: split; [reflexivity|].
  all: split;
    [ first
        [ exists []; reflexivity
        | eexists [_; _]; reflexivity
        | eexists [_; _; _; _]; reflexivity
        | eexists (_ :: _ :: _ :: _ :: _ :: (_ ++ [_; _; _])%list);
            cbn [app]; rewrite <- app_assoc; reflexivity
        | eexists (_ :: _ :: _); cbn [app]; reflexivity ] | ].
  all: cbn [in_raw out_raw watching]; repeat split; try discriminate;
    try tauto.
  all: destruct Hfin as (F1 & F2 & F3 & F4 & F5 & F6);
    cbn [in_raw out_raw watching saved_in saved_out] in *.
  all: try solve [rewrite ?F5, ?F6; tauto].
  all: match goal with
       | H : session ?i ?w ?l ?s0 = _ |- _ =>
           assert (He : escaping i = false) by (destruct stdin; reflexivity);
           pose proof (session_direct_state i w l s0 He) as Hd;
           cbv zeta in Hd; rewrite H in Hd;
           cbn [fst in_raw out_raw watching] in Hd;
           destruct Hd as (D1 & D2 & D3)
       end; congruence.
Qed.

(** X9.  However [execImpl] returns, the context is cancelled, by a last
    call of [cancelFn] after every release, and no terminal is in raw
    mode and no watcher registered that was not before the call. *)
Theorem execImpl_cancels_and_restores (alloc : Allocation)
  (task job action : string) (tty : bool) (esc : string)
  (stdin : option Source) (stdout stderr : Writer) (s : State) :
  let '(r, s', ev) :=
    execImpl env alloc task job action tty esc stdin stdout stderr s in
  cancelled s' = true /\
  (exists ev', ev = (ev' ++ [EvCancel])%list) /\
  (forall x, held x s' = true -> held x s = true).
Proof.
  pose proof (execImpl_final_state alloc task job action tty esc stdin
                stdout stderr s) as H.
  destruct (execImpl _ _ _ _ _ _ _ _ _ _ _) as [[r s'] ev].
  destruct H as (Hc & Hl & H1 & H2 & H3).
  split; [exact Hc|]. split; [exact Hl|].
  intros [ | | ]; simpl; assumption.
Qed.

(** X10.  Whatever the flags, the collaborators and the session do, [Run]
    leaves no terminal in raw mode and no watcher registered that was
    not before: from a cooked terminal it returns to a cooked one. *)
Theorem Run_restores_terminal (l : ActionCommand) (parsed : error + Flags)
  (s : State) :
  let '(code, s', ev) := Run env l parsed s in
  (forall x, held x s' = true -> held x s = true) /\
  (in_raw s = false -> out_raw s = false -> watching s = false ->
   in_raw s' = false /\ out_raw s' = false /\ watching s' = false).
Proof.
  assert (Hgoal : forall s' : State,
    ((in_raw s' = true -> in_raw s = true) /\
     (out_raw s' = true -> out_raw s = true) /\
     (watching s' = true -> watching s = true)) ->
    (forall x, held x s' = true -> held x s = true) /\
    (in_raw s = false -> out_raw s = false -> watching s = false ->
     in_raw s' = false /\ out_raw s' = false /\ watching s' = false)).
  { intros s' (H1 & H2 & H3). split.
    - intros [ | | ]; simpl; assumption.
    - intros G1 G2 G3.
      destruct (in_raw s') eqn:E1; [rewrite H1 in G1 by reflexivity; discriminate|].
      destruct (out_raw s') eqn:E2; [rewrite H2 in G2 by reflexivity; discriminate|].
      destruct (watching s') eqn:E3; [rewrite H3 in G3 by reflexivity; discriminate|].
      auto. }
  destruct parsed as [perr|f]; [apply Hgoal; simpl; tauto|].
  destruct (Run_cases l f s)
    as [(pre & msg & -> & _ & _) | (stub & alloc & t & Hv & Hr & HI & HT)];
    [apply Hgoal; tauto|].
  rewrite (Run_resolved l f s stub Hv Hr), HI, HT.
  pose proof (execImpl_final_state alloc t (job f) (hd "" (args f)) (ttyOpt f)
                (escape_of f) (stdin_of l f) (stdout_of l) (stderr_of l) s)
    as Hex.
  destruct (execImpl _ _ _ _ _ _ _ _ _ _ _) as [[[c [err|]] s'] ev];
    unfold exit_of_exec; apply Hgoal; tauto.
Qed.

(** X11.  Without a tty [execImpl] sets up nothing and cannot fail
    locally: it makes the remote call with stdin handed on as it is and
    returns what the call returns; it acquires and releases nothing,
    writes no notice whatever the escape flag, and leaves the terminal
    and the watcher as they were. *)
Theorem execImpl_without_tty (alloc : Allocation) (task job action : string)
  (tty : bool) (esc : string) (stdin : option Source) (stdout stderr : Writer)
  (s : State) :
  tty = false ->
  let a := mkExecArgs alloc task false action (option_map Direct stdin)
             stdout stderr in
  let '(r, s', ev) :=
    execImpl env alloc task job action tty esc stdin stdout stderr s in
  r = snd (ActionExec env a) /\
  In (EvActionExec a) ev /\
  acquisitions ev = [] /\ releases ev = [] /\
  List.filter is_notice ev = [] /\
  in_raw s' = in_raw s /\ out_raw s' = out_raw s /\ watching s' = watching s.
Proof.
  intros ->. cbv zeta.
  assert (Hesc : escaping (option_map Direct stdin) = false)
    by (destruct stdin; reflexivity).
  exec_cases; sess_facts; rewrite ?app_nil_r.
  match goal with
  | H : session ?i ?w ?l ?s0 = _ |- _ =>
      pose proof (session_direct_state i w l s0 Hesc) as Hst;
      cbv zeta in Hst; rewrite H in Hst; cbn [fst] in Hst
  end.
  rewrite Hesc in Hrel, Hnot. cbn [andb] in Hrel.
  assert (Hrel0 : releases l0 = []).
  { rewrite Hrel. clear. induction l as [|i l IH]; [reflexivity | exact IH]. }
  apply length_zero_iff_nil in Hnot.
  unfold acquisitions, releases in *. rewrite !flat_map_app, ?List.filter_app.
  cbn [flat_map app List.filter is_notice]. rewrite Hacq, Hrel0, Hnot.
  destruct Hst as (S1 & S2 & S3).
  repeat split; try assumption. simpl. auto.
Qed.

(** X12.  The arguments of the remote call of a run: the action is the
    first argument of the command line and the tty flag is [-t]; stdout
    and stderr are the command's, or those of the process where it has
    none; with [-i=false] stdin is the exhausted reader and there is no
    tty; with [-i] it is the command's stdin, or that of the process
    where it has none, as it is or behind the escaping reader. *)
Theorem Run_exec_streams (l : ActionCommand) (f : Flags) (s : State)
  (a : ExecArgs Allocation) :
  In (EvActionExec a) (snd (Run env l (inr f) s)) ->
  ea_action a = hd "" (args f) /\ args f <> [] /\
  ea_tty a = ttyOpt f /\
  ea_stdout a = match Stdout l with None => OsStdout | Some w => w end /\
  ea_stderr a = match Stderr l with None => OsStderr | Some w => w end /\
  (stdinOpt f = false ->
   ea_stdin a = Some (Direct BytesReaderNil) /\ ea_tty a = false) /\
  (stdinOpt f = true ->
   let src := match Stdin l with None => OsStdin | Some r => r end in
   ea_stdin a = Some (Direct src) \/
   exists c, ea_tty a = true /\ ea_stdin a = Some (EscapingReader src c)).
Proof.
  intros Ha.
  apply Run_exec_args in Ha
    as ((Hargs & _ & Htty & _) & stub & alloc & t & _ & _ & _ & ->).
  cbn [ea_action ea_tty ea_stdout ea_stderr ea_stdin].
  unfold session_stdin, stdin_of, stdout_of, stderr_of.
  repeat split; try assumption.
  - rewrite H. simpl. destruct (ttyOpt f) eqn:Et; [|reflexivity].
    rewrite (Htty eq_refl) in H. discriminate.
  - destruct (ttyOpt f) eqn:Et; [|reflexivity].
    rewrite (Htty eq_refl) in H. discriminate.
  - intros Hi. rewrite Hi. simpl.
    destruct (ttyOpt f), (Stdin l), (escape_of f); simpl; eauto.
Qed.

(** X13.  With an allocation given, the value of [-job] plays no part
    beyond being there: two runs that differ only in a non-empty job do
    the same. *)
Theorem Run_job_unused_with_allocation (l : ActionCommand) (f : Flags)
  (s : State) (j : string) :
  allocation f <> "" -> job f <> "" -> j <> "" ->
  Run env l (inr (set_job f j)) s = Run env l (inr f) s.
Proof.
  intros Hal Hj Hj'. apply String.eqb_neq in Hal, Hj, Hj'.
  run_unfold_all. rewrite Hal, Hj, Hj'. reflexivity.
Qed.

(** X14.  A set-up step of [execImpl] that fails ends it with -1 and the
    step's error, without a remote call, after the steps before it were
    undone in reverse: nothing for the input terminal, the input
    terminal for the output terminal, both for the watcher; a nil stdin
    ends it the same way before any step.  Each terminal is then in the
    mode it had before the call, raw or not, and the context is
    cancelled.  With all three steps done the remote call is made. *)
Theorem execImpl_setup_failure (alloc : Allocation) (task job action : string)
  (tty : bool) (esc : string) (stdin : option Source) (stdout stderr : Writer)
  (s : State) :
  tty = true ->
  let run := execImpl env alloc task job action tty esc stdin stdout stderr s in
  let cancelled_only :=
    mkState (in_raw s) (out_raw s) (watching s) true
      (saved_in s) (saved_out s) in
  match stdin with
  | None => run = (((-1)%Z, Some "stdin is null"), cancelled_only, [EvCancel])
  | Some r =>
      match setRawTerminal env r with
      | Some e => run = (((-1)%Z, Some e), cancelled_only, [EvCancel])
      | None =>
          match setRawTerminalOutput env stdout with
          | Some e =>
              run = (((-1)%Z, Some e),
                     mkState (in_raw s) (out_raw s) (watching s) true
                       (in_raw s) (saved_out s),
                     [EvAcquire TermIn; EvRelease TermIn; EvCancel])
          | None =>
              match watchTerminalSize env stdout with
              | Some e =>
                  run = (((-1)%Z, Some e),
                         mkState (in_raw s) (out_raw s) (watching s) true
                           (in_raw s) (out_raw s),
                         [EvAcquire TermIn; EvAcquire TermOut;
                          EvRelease TermOut; EvRelease TermIn; EvCancel])
              | None =>
                  exists a, In (EvActionExec a) (snd run) /\
                            fst (fst run) = snd (ActionExec env a)
              end
          end
      end
  end.
Proof.
  intros ->. cbv zeta.
  exec_cases; try reflexivity.
  all: eexists; split;
    [ simpl; do 4 right; left; reflexivity | rewrite Heqp; reflexivity ].
Qed.

(** X15.  [Run] creates its client exactly when the flags pass its
    checks, as the first thing it does then.  Flags that do not pass end
    it with exit code 1 and one message, nothing else done; a missing
    action name is reported before a missing job, and that before the
    [-t], [-i] and [-e] checks. *)
Theorem Run_validates_before_client (l : ActionCommand) (f : Flags)
  (s : State) :
  (valid_flags f -> hd_error (snd (Run env l (inr f) s)) = Some EvMetaClient) /\
  (~ valid_flags f ->
   exists msg,
     Run env l (inr f) s = (1%Z, s, [UiError msg]) /\
     (args f = [] -> msg = "An action name is required") /\
     (args f <> [] -> job f = "" -> msg = "A job ID is required")).
Proof.
  split.
  - intros Hv.
    destruct (Run_cases l f s)
      as [(pre & msg & -> & _ & Hhd) | (stub & alloc & t & _ & Hr & HI & HT)].
    + specialize (Hhd Hv). cbn [snd].
      destruct pre as [|e pre]; [discriminate | exact Hhd].
    + rewrite (Run_resolved l f s stub Hv Hr), HI, HT.
      destruct (execImpl _ _ _ _ _ _ _ _ _ _ _) as [[[c [err|]] s'] ev];
        reflexivity.
  - intros Hnv. run_unfold_all.
    destruct (args f) as [|a0 rest] eqn:Ea; simpl.
    { eexists. split; [reflexivity|]. split; [reflexivity | congruence]. }
    destruct (String.eqb_spec (job f) "") as [Ej|Ej]; simpl.
    { eexists. split; [reflexivity|]. split; [discriminate | reflexivity]. }
    destruct (ttyOpt f && negb (stdinOpt f)) eqn:Et; simpl.
    { eexists. split; [reflexivity|]. split; [discriminate | contradiction]. }
    fold (escape_of f).
    destruct (1 <? String.length (escape_of f))%nat eqn:Ee; simpl.
    { eexists. split; [reflexivity|]. split; [discriminate | contradiction]. }
    exfalso. apply Hnv. unfold valid_flags. rewrite Ea.
    repeat split; [discriminate | assumption | |].
    + intros Ht. rewrite Ht in Et. simpl in Et.
      destruct (stdinOpt f); [reflexivity | discriminate].
    + apply Nat.ltb_ge. exact Ee.
Qed.

(** The events of [execImpl] are none of the client's. *)
Lemma execImpl_no_rpc (alloc : Allocation) (task job action : string)
  (tty : bool) (esc : string) (stdin : option Source) (stdout stderr : Writer)
  (s : State) (f : Flags) :
  forallb (fits_target f)
    (snd (execImpl env alloc task job action tty esc stdin stdout stderr s))
  = true.
Proof.
  assert (Hloc : forall l : list (Event Allocation),
            forallb is_local l = true -> forallb (fits_target f) l = true).
  { intros l Hl. rewrite forallb_forall in *. intros e He.
    specialize (Hl e He). destruct e; try discriminate; reflexivity. }
  exec_cases; try sess_facts; rewrite ?app_nil_r; try reflexivity.
  all: rewrite forallb_app, (Hloc _ Hloc0); reflexivity.
Qed.

(** X16.  The client calls of a run fit the way the target is given:
    without an allocation flag the prefix list is never asked; with one,
    neither the job nor the allocations of a job are ever looked up. *)
Theorem Run_rpc_selection (l : ActionCommand) (f : Flags) (s : State) :
  (allocation f = "" ->
   forall p, ~ In (EvPrefixList p) (snd (Run env l (inr f) s))) /\
  (allocation f <> "" ->
   (forall j, ~ In (EvJobIDByPrefix j) (snd (Run env l (inr f) s))) /\
   (forall j g n,
      ~ In (EvGetRandomJobAlloc j g n) (snd (Run env l (inr f) s)))).
Proof.
  assert (Hall : forallb (fits_target f) (snd (Run env l (inr f) s)) = true).
  { remember (Run env l (inr f) s) as X eqn:HX.
    destruct (args f) as [|a0 rest] eqn:Ea.
    { run_unfold_in HX. rewrite Ea in HX. simpl in HX. subst X. reflexivity. }
    destruct (job f =? "") eqn:Ej.
    { run_unfold_in HX. rewrite Ea, Ej in HX. simpl in HX. subst X.
      reflexivity. }
    destruct (ttyOpt f && negb (stdinOpt f)) eqn:Et.
    { run_unfold_in HX. rewrite Ea, Ej, Et in HX. simpl in HX. subst X.
      reflexivity. }
    destruct (1 <? String.length (escape_of f))%nat eqn:Ee.
    { run_unfold_in HX. rewrite Ea, Ej, Et in HX. simpl in HX.
      fold (escape_of f) in HX. rewrite Ee in HX. simpl in HX. subst X.
      reflexivity. }
    assert (Hv : valid_flags f).
    { unfold valid_flags. rewrite Ea. repeat split; [discriminate | | |].
      - apply String.eqb_neq. exact Ej.
      - intros Ht. rewrite Ht in Et. simpl in Et.
        destruct (stdinOpt f); [reflexivity | discriminate].
      - apply Nat.ltb_ge. exact Ee. }
    assert (Hres : forall stub, resolves env f stub ->
              forallb (fits_target f) (snd X) = true).
    { intros stub Hr. rewrite (Run_resolved l f s stub Hv Hr) in HX.
      assert (Hpre : forallb (fits_target f) (resolution_events env f stub)
                     = true).
      { unfold resolution_events.
        destruct (allocation f =? "") eqn:Eal.
        - destruct (JobIDByPrefix env (job f)) as [err|[jobID ns]];
            simpl; rewrite ?Eal; reflexivity.
        - simpl. rewrite Eal. reflexivity. }
      destruct (AllocInfo env (stub_ID stub) (stub_Namespace stub))
        as [err|alloc].
      { subst X. cbn [snd]. rewrite forallb_app, Hpre. reflexivity. }
      destruct (resolve_task env f alloc) as [err|t].
      { subst X. cbn [snd]. rewrite forallb_app, Hpre. reflexivity. }
      pose proof (execImpl_no_rpc alloc t (job f) (hd "" (args f)) (ttyOpt f)
                    (escape_of f) (stdin_of l f) (stdout_of l) (stderr_of l)
                    s f) as Hex.
      destruct (execImpl _ _ _ _ _ _ _ _ _ _ _) as [[[c [err|]] s'] ev];
        subst X; unfold exit_of_exec; cbn [snd] in *;
        rewrite !forallb_app, Hpre, Hex; reflexivity. }
    run_unfold_in HX. rewrite Ea, Ej, Et in HX. simpl in HX.
    fold (escape_of f) in HX. rewrite Ee in HX. simpl in HX.
    destruct (MetaClient env) as [err|] eqn:Ec; simpl in HX;
      [subst X; reflexivity|].
    destruct (allocation f =? "") eqn:Eal; simpl in HX.
    - destruct (group f =? "") eqn:Eg; simpl in HX; [subst X; reflexivity|].
      destruct (task f =? "") eqn:Etk; simpl in HX; [subst X; reflexivity|].
      destruct (JobIDByPrefix env (job f)) as [err|[jobID ns]] eqn:EJ;
        simpl in HX; [subst X; simpl; rewrite Eal; reflexivity|].
      destruct (getRandomJobAlloc env jobID (group f) ns) as [err|stub] eqn:ER;
        simpl in HX; [subst X; simpl; rewrite Eal; reflexivity|].
      apply (Hres stub). split; [exact Ec|]. left.
      apply String.eqb_eq in Eal. apply String.eqb_neq in Eg, Etk. eauto 10.
    - destruct (PrefixList env (sanitizeUUIDPrefix env (allocation f)))
        as [err|[|stub [|stub' more]]] eqn:EP; simpl in HX;
        try (subst X; simpl; rewrite Eal; reflexivity).
      apply (Hres stub). split; [exact Ec|]. right.
      apply String.eqb_neq in Eal. auto. }
  rewrite forallb_forall in Hall. split.
  - intros Hal p Hin. apply Hall in Hin. simpl in Hin.
    rewrite Hal in Hin. discriminate.
  - intros Hal. apply String.eqb_neq in Hal. split.
    + intros j Hin. apply Hall in Hin. simpl in Hin.
      rewrite Hal in Hin. discriminate.
    + intros j g n Hin. apply Hall in Hin. simpl in Hin.
      rewrite Hal in Hin. discriminate.
Qed.

End CommandProofs.

(** ** The theorems at work on the sample cluster *)

Import Command Sample.

Lemma sample_heap_wf : Structs.wf_heap sample_heap.
Proof.
  intros l obj H. cbn [sample_heap Structs.actions] in H.
  apply lookup_singleton_Some in H as [<- <-].
  eexists. reflexivity.
Qed.

Lemma valid_flags_alloc (a : string) (tty : bool) :
  valid_flags (flags_alloc a tty "~").
Proof.
  repeat split; try discriminate. simpl. lia.
Qed.

(** C9 at work: the copy of the sample action is equal to it. *)
Lemma Action_Copy_Equal_witness :
  exists na h',
    Structs.Copy (Some 0) sample_heap = Some (Some na, h') /\
    na <> 0 /\
    Structs.Equal (Some 0) (Some na) h' = Some true /\
    Structs.Equal (Some 0) None sample_heap = Some false.
Proof.
  destruct (Action_Copy_Equal_value_based sample_heap 0 sample_action
              sample_heap_wf eq_refl)
    as (_ & (na & h' & cp & HC & Hne & _ & _ & _ & _ & _ & HE & _) & _ & HN & _).
  exists na, h'. auto.
Defined.

(** C10 at work: four reservable cores give four cores; none, a panic. *)
Lemma topologyFromLegacy_witness :
  (exists t,
     Numa.topologyFromLegacy uint64 uint16 legacy4 = Some t /\
     length (Numa.Cores t) = 4) /\
  Numa.topologyFromLegacy uint64 uint16 legacy_no_cores = None.
Proof.
  split.
  - destruct (proj1 (topologyFromLegacy_needs_reservable_cores
                       uint64 uint16 legacy4))
      as (t & Ht & Hl & _); [simpl; lia|].
    exists t. split; [exact Ht | exact Hl].
  - apply (proj1 (proj2 (topologyFromLegacy_needs_reservable_cores
                           uint64 uint16 legacy_no_cores))).
    reflexivity.
Defined.

(** C1 at work: on a cooked terminal, and on terminals that were raw
    before the set-up, which the abort leaves raw. *)
Lemma escape_callback_witness :
  escape_callback (Allocation := Alloc) OsStderr "."%char cooked =
  (true, mkState false false false true false false,
   [EvRelease TermOut; EvRelease TermIn; EvWrite OsStderr notice; EvCancel]) /\
  escape_callback (Allocation := Alloc) OsStderr "x"%char cooked =
  (false, cooked, []) /\
  in_raw
    (snd (fst (escape_callback (Allocation := Alloc) OsStderr "."%char
                 (fst (acquire (Allocation := Alloc) SizeWatch
                    (fst (acquire (Allocation := Alloc) TermOut
                       (fst (acquire (Allocation := Alloc) TermIn
                               raw_before)))))))))
  = true.
Proof.
  split; [|split].
  - apply (proj1 (escape_callback_dot_aborts OsStderr "."%char cooked)).
    reflexivity.
  - apply (proj1 (proj2 (escape_callback_dot_aborts OsStderr "x"%char cooked))).
    discriminate.
  - apply (proj2 (proj2 (proj2
             (escape_callback_dot_aborts (Allocation := Alloc)
                OsStderr "."%char raw_before)))).
Defined.

(** C2 at work. *)
Lemma Run_tty_requires_stdin_witness :
  exists msg,
    Run (sample_env [] (0%Z, None)) cmd (inr flags_no_stdin) cooked =
    (1%Z, cooked, [UiError msg]) /\
    (args flags_no_stdin <> [] -> job flags_no_stdin <> "" ->
     msg = "-i must be enabled if running with tty").
Proof.
  apply Run_tty_requires_stdin; reflexivity.
Defined.

(** C5 at work: the prefix [abc] matches both allocations, [abc1] one. *)
Lemma Run_allocation_prefix_witness :
  Run (sample_env [] (0%Z, None)) cmd (inr (flags_alloc "abc" true "~")) cooked =
  (1%Z, cooked,
   [EvMetaClient; EvPrefixList "abc";
    UiError ("Prefix matched multiple allocations" ++ nl ++ nl
             ++ "abc123" ++ nl ++ "abc789" ++ nl)]) /\
  (forall a,
     In (EvActionExec a)
        (snd (Run (sample_env [] (0%Z, None)) cmd
                (inr (flags_alloc "abc1" true "~")) cooked)) ->
     ea_alloc a = ("abc123", ["server"])).
Proof.
  split.
  - exact (Run_allocation_prefix (sample_env [] (0%Z, None)) cmd
             (flags_alloc "abc" true "~") cooked
             [mkStub "abc123" "default"; mkStub "abc789" "default"]
             (valid_flags_alloc "abc" true) eq_refl
             ltac:(discriminate) eq_refl).
  - intros a Ha.
    pose proof (proj2 (Run_allocation_prefix (sample_env [] (0%Z, None)) cmd
             (flags_alloc "abc1" true "~") cooked
             [mkStub "abc123" "default"]
             (valid_flags_alloc "abc1" true) eq_refl
             ltac:(discriminate) eq_refl) a Ha) as H.
    simpl in H. congruence.
Defined.

(** C8 at work: without a target the command stops after creating its
    client; with the allocation [abc7], which has two tasks, and no task
    flag the lookup fails. *)
Lemma Run_task_resolution_witness :
  (exists msg,
     Run (sample_env [] (0%Z, None)) cmd (inr flags_no_target) cooked =
     (1%Z, cooked, [EvMetaClient; UiError msg])) /\
  Run (sample_env [] (0%Z, None)) cmd (inr (flags_alloc "abc7" true "~")) cooked =
  (1%Z, cooked,
   [EvMetaClient; EvPrefixList "abc7"; EvAllocInfo "abc789" "default";
    UiError "Allocation has several tasks"]).
Proof.
  split.
  - apply (proj2 (Run_task_resolution (sample_env [] (0%Z, None)) cmd
                    flags_no_target cooked
                    ltac:(repeat split; try discriminate; simpl; lia)));
      [reflexivity | reflexivity | left; reflexivity].
  - apply (proj2 (proj2 (proj1
             (Run_task_resolution (sample_env [] (0%Z, None)) cmd
                (flags_alloc "abc7" true "~") cooked
                (valid_flags_alloc "abc7" true))
             (mkStub "abc789" "default") ("abc789", ["server"; "sidecar"])
             ltac:(split; [reflexivity | right; split;
                            [discriminate | reflexivity]])
             eq_refl) eq_refl)).
Defined.

(** X17 at work: a flag of two bytes is refused. *)
Lemma Run_escape_char_witness :
  Run (sample_env [] (0%Z, None)) cmd (inr (flags_alloc "abc1" true "ab")) cooked =
  (1%Z, cooked, [UiError "-e requires 'none' or a single character"]).
Proof.
  apply (proj1 (Run_escape_char (sample_env [] (0%Z, None)) cmd
                  (flags_alloc "abc1" true "ab") cooked
                  ltac:(discriminate) ltac:(discriminate)
                  ltac:(reflexivity)));
    [discriminate | simpl; lia].
Defined.

(** C3.  The code at the empty escape flag, which is neither ["none"] nor
    one character: [Run] reports no error for it, the session runs on a
    tty with stdin handed on as it is, and an escape character followed
    by ['.'] aborts nothing: no notice is written, no early restore
    happens and the remote exit code 3 comes back.  So ["none"] is not
    the only value that disables the escape. *)
Theorem empty_escape_char_accepted :
  escapeChar (flags_alloc "abc1" true "") <> "none" /\
  String.length (escapeChar (flags_alloc "abc1" true "")) <> 1 /\
  exists a ev,
    Run (sample_env [EscapeByte "."%char] (3%Z, None)) cmd
      (inr (flags_alloc "abc1" true "")) cooked
    = (3%Z, mkState false false false true false false, ev) /\
    (forall msg, ~ In (UiError msg) ev) /\
    In (EvActionExec a) ev /\
    ea_tty a = true /\
    ea_stdin a = Some (Direct OsStdin) /\
    List.filter is_notice ev = [] /\
    releases ev = [SizeWatch; TermOut; TermIn].
Proof.
  split; [discriminate|]. split; [discriminate|].
  eexists _, _. split; [reflexivity|].
  split.
  - intros msg H. simpl in H.
    repeat (destruct H as [H|H]; [discriminate H|]). exact H.
  - split; [do 7 right; left; reflexivity|]. repeat split.
Qed.


(** ** More on [Action.Copy] and [Action.Equal] *)

Section ActionMore.
Import Structs.

(** [Equal] on valid pointers always answers, and as a relation. *)
Lemma Equal_valid (h : heap) (a o : option loc) :
  wf_heap h -> valid_ptr h a -> valid_ptr h o ->
  exists b, Equal a o h = Some b /\
    (b = true <->
     match a, o with
     | None, None => True
     | Some la, Some lo =>
         exists x y, actions h !! la = Some x /\ actions h !! lo = Some y /\
           Name x = Name y /\ Command x = Command y /\
           args_elems h (Args x) = args_elems h (Args y)
     | _, _ => False
     end).
Proof.
  intros Hwf Ha Ho. destruct a as [la|], o as [lo|]; simpl in *.
  - destruct Ha as [x Hx], Ho as [y Hy].
    rewrite (Equal_objects h la lo x y Hx Hy (Hwf _ _ Hx) (Hwf _ _ Hy)).
    eexists. split; [reflexivity|].
    rewrite !andb_true_iff, !bool_decide_eq_true. split.
    + intros [[H1 H2] H3]. exists x, y. auto.
    + intros (x' & y' & Hx' & Hy' & H1 & H2 & H3).
      rewrite Hx in Hx'. rewrite Hy in Hy'.
      injection Hx' as <-. injection Hy' as <-. auto.
  - exists false. split; [reflexivity|]. split; [discriminate | tauto].
  - exists false. split; [reflexivity|]. split; [discriminate | tauto].
  - exists true. split; [reflexivity|]. tauto.
Qed.

(** X1.  On two objects of a well-formed heap [Equal] is true exactly when
    the names, the commands and the argument lists are equal, where a nil
    [Args] and an empty one are the same list; otherwise it is false. *)
Theorem Action_Equal_structural (h : heap) (la lo : loc) (x y : Action) :
  wf_heap h -> actions h !! la = Some x -> actions h !! lo = Some y ->
  (Equal (Some la) (Some lo) h = Some true <->
   Name x = Name y /\ Command x = Command y /\
   args_elems h (Args x) = args_elems h (Args y)) /\
  (Equal (Some la) (Some lo) h = Some true \/
   Equal (Some la) (Some lo) h = Some false).
Proof.
  intros Hwf Hx Hy.
  rewrite (Equal_objects h la lo x y Hx Hy (Hwf _ _ Hx) (Hwf _ _ Hy)).
  split.
  - split.
    + intros [= H]. rewrite !andb_true_iff, !bool_decide_eq_true in H. tauto.
    + intros (H1 & H2 & H3). f_equal.
      rewrite !andb_true_iff, !bool_decide_eq_true. auto.
  - destruct (_ && _ && _); auto.
Qed.

(** X2.  On valid pointers of a well-formed heap [Equal] is an equivalence:
    reflexive, symmetric and transitive, nil included. *)
Theorem Action_Equal_equivalence (h : heap) (a b c : option loc) :
  wf_heap h -> valid_ptr h a -> valid_ptr h b -> valid_ptr h c ->
  Equal a a h = Some true /\
  Equal a b h = Equal b a h /\
  (Equal a b h = Some true -> Equal b c h = Some true ->
   Equal a c h = Some true).
Proof.
  intros Hwf Ha Hb Hc.
  destruct (Equal_valid h a b Hwf Ha Hb) as (ab & Eab & Hab).
  destruct (Equal_valid h b a Hwf Hb Ha) as (ba & Eba & Hba).
  destruct (Equal_valid h b c Hwf Hb Hc) as (bc & Ebc & Hbc).
  destruct (Equal_valid h a c Hwf Ha Hc) as (ac & Eac & Hac).
  split; [|split].
  - unfold Equal. destruct (decide (a = a)); [reflexivity | contradiction].
  - rewrite Eab, Eba. f_equal. apply eq_true_iff_eq.
    rewrite Hab, Hba. destruct a as [la|], b as [lb|]; try tauto.
    split; intros (x & y & Hx & Hy & H1 & H2 & H3); exists y, x; auto.
  - rewrite Eab, Ebc, Eac. intros [= ->] [= ->]. f_equal. apply Hac.
    destruct Hab as [Hab _], Hbc as [Hbc _].
    specialize (Hab eq_refl). specialize (Hbc eq_refl).
    destruct a as [la|], b as [lb|], c as [lc|]; try tauto.
    destruct Hab as (x & y & Hx & Hy & H1 & H2 & H3).
    destruct Hbc as (y' & z & Hy' & Hz & G1 & G2 & G3).
    rewrite Hy in Hy'. injection Hy' as <-.
    exists x, z. repeat split; try assumption; congruence.
Qed.

(** X3.  [Copy] keeps the heap well formed and changes nothing that was
    there: every object and every backing array of the heap is as before.
    The copy's [Args] is nil exactly when the original's is, and the copy
    can be copied again. *)
Theorem Action_Copy_frame (h : heap) (l : loc) (obj : Action) :
  wf_heap h -> actions h !! l = Some obj ->
  exists na h' cp,
    Copy (Some l) h = Some (Some na, h') /\
    actions h' !! na = Some cp /\
    wf_heap h' /\
    (forall l' o, actions h !! l' = Some o -> actions h' !! l' = Some o) /\
    (forall b arr, arrays h !! b = Some arr -> arrays h' !! b = Some arr) /\
    (Args cp = None <-> Args obj = None) /\
    is_Some (Copy (Some na) h').
Proof.
  intros Hwf Hl.
  destruct (Copy_result h l obj Hwf Hl) as (args' & ar' & HC & Hcase).
  pose proof (fresh_action_unused h) as Hna.
  pose proof (fresh_array_unused h) as Hb.
  set (na := fresh (dom (actions h))) in *.
  set (b := fresh (dom (arrays h))) in *.
  set (cp := mkAction (Name obj) (Command obj) args') in *.
  set (h' := Heap ar' (<[na := cp]> (actions h))) in *.
  assert (Hacts : forall l' o, actions h !! l' = Some o ->
                               actions h' !! l' = Some o).
  { intros l' o Ho. simpl. rewrite lookup_insert_ne by congruence. exact Ho. }
  assert (Harrs : forall b' arr, arrays h !! b' = Some arr ->
                                 arrays h' !! b' = Some arr).
  { intros b' arr Ha. simpl.
    destruct Hcase as [(_ & _ & ->) | (s & xs & _ & _ & _ & ->)];
      [exact Ha|].
    rewrite lookup_insert_ne by congruence. exact Ha. }
  assert (Helems : forall a, is_Some (args_elems h a) ->
                             args_elems h' a = args_elems h a).
  { intros a Ha. destruct Hcase as [(_ & _ & E) | (s & xs & _ & _ & _ & E)].
    - unfold h'. rewrite E. destruct a; reflexivity.
    - unfold h'. rewrite E. apply args_elems_insert_other; assumption. }
  assert (Hcp : is_Some (args_elems h' (Args cp))).
  { destruct Hcase as [(_ & E & _) | (s & xs & _ & _ & E & E')].
    - unfold cp. rewrite E. simpl. eauto.
    - unfold cp, h'. rewrite E, E'. simpl. rewrite slice_elems_whole. eauto. }
  assert (Hwf' : wf_heap h').
  { intros l' o Ho. simpl in Ho.
    destruct (decide (na = l')) as [<-|Hne].
    - rewrite lookup_insert_eq in Ho. injection Ho as <-. exact Hcp.
    - rewrite lookup_insert_ne in Ho by assumption.
      rewrite Helems; eapply Hwf; eassumption. }
  assert (Hcpl : actions h' !! na = Some cp) by apply lookup_insert_eq.
  exists na, h', cp. split; [exact HC|]. split; [exact Hcpl|].
  split; [exact Hwf'|]. split; [exact Hacts|]. split; [exact Harrs|]. split.
  - destruct Hcase as [(E1 & E2 & _) | (s & xs & E1 & _ & E2 & _)];
      unfold cp; simpl; rewrite E1, E2; split; auto; discriminate.
  - destruct (Copy_result h' na cp Hwf' Hcpl) as (a2 & r2 & HC2 & _).
    rewrite HC2. eauto.
Qed.

End ActionMore.

(** ** NUMA affinity and processor resources *)

Section NumaMore.
Import Numa.

Variable MHz : Z -> Z.
Variable CoreID : Z -> Z.

(** X4.  [NUMA.Equal] is true exactly when both pointers are nil or both
    point to the same affinity; so it is an equivalence, and a copy is
    equal to its original, nil to nil. *)
Theorem NUMA_Equal_iff (n o p : option NUMA) :
  (NUMA_Equal n o = true <-> n = o) /\
  NUMA_Equal n o = NUMA_Equal o n /\
  (NUMA_Equal n o = true -> NUMA_Equal o p = true -> NUMA_Equal n p = true) /\
  NUMA_Copy n = n /\
  NUMA_Equal n (NUMA_Copy n) = true.
Proof.
  assert (Hiff : forall a b, NUMA_Equal a b = true <-> a = b).
  { intros [[x]|] [[y]|]; simpl; try (split; intros; congruence).
    rewrite String.eqb_eq. split; congruence. }
  assert (Hcopy : NUMA_Copy n = n) by (destruct n as [[x]|]; reflexivity).
  split; [apply Hiff|]. split; [|split; [|split]].
  - apply eq_true_iff_eq. rewrite !Hiff. split; congruence.
  - rewrite !Hiff. congruence.
  - exact Hcopy.
  - rewrite Hcopy. apply Hiff. reflexivity.
Qed.

(** X5.  [NUMA.Validate] accepts nil and the affinities none, prefer and
    require, and nothing else.  On what it accepts, [Requested] is true
    exactly for prefer and require; nil is not requested.  Equal values
    validate and request alike. *)
Theorem NUMA_Validate_Requested (n o : option NUMA) :
  (NUMA_Validate n = None <->
   n = None \/
   exists x, n = Some x /\
     (Affinity x = "none" \/ Affinity x = "prefer" \/ Affinity x = "require")) /\
  (NUMA_Validate n = None ->
   (NUMA_Requested n = true <->
    exists x, n = Some x /\
      (Affinity x = "prefer" \/ Affinity x = "require"))) /\
  (NUMA_Equal n o = true ->
   NUMA_Validate n = NUMA_Validate o /\
   NUMA_Requested n = NUMA_Requested o).
Proof.
  split; [|split].
  - destruct n as [x|]; simpl; [|split; auto].
    unfold NoneNUMA, PreferNUMA, RequireNUMA.
    destruct (String.eqb_spec (Affinity x) "none") as [E1|E1];
      destruct (String.eqb_spec (Affinity x) "prefer") as [E2|E2];
      destruct (String.eqb_spec (Affinity x) "require") as [E3|E3];
      simpl; split; intros H; try discriminate; eauto 6.
    destruct H as [H | (y & [= <-] & [H | [H | H]])];
      [discriminate | contradiction..].
  - destruct n as [x|]; simpl.
    + unfold NoneNUMA, PreferNUMA, RequireNUMA.
      destruct (String.eqb_spec (Affinity x) "none") as [E1|E1]; simpl.
      * intros _. split; [discriminate|].
        intros (y & [= <-] & [H | H]); rewrite H in E1; discriminate.
      * destruct (String.eqb_spec (Affinity x) "prefer") as [E2|E2];
          destruct (String.eqb_spec (Affinity x) "require") as [E3|E3];
          simpl; intros Hv; try discriminate; split; eauto.
    + intros _. split; [discriminate|]. intros (y & Hy & _). discriminate.
  - destruct n as [x|], o as [y|]; simpl; try discriminate; [|auto].
    intros H. apply String.eqb_eq in H. rewrite H. auto.
Qed.

(** X6.  [Merge] with nil, or with resources that have no topology,
    changes nothing; otherwise it takes over the other's topology,
    whatever [r] had.  So merging resources that are not empty leaves [r]
    not empty, merging a topology without cores leaves it empty, and
    merging twice is merging once.  A copy has the same topology. *)
Theorem NPR_Merge_takes_topology (r o' : NodeProcessorResources) :
  NPR_Merge r None = r /\
  (npr_Topology o' = None -> NPR_Merge r (Some o') = r) /\
  (npr_Topology o' <> None -> NPR_Merge r (Some o') = o') /\
  (NPR_empty o' = false -> NPR_empty (NPR_Merge r (Some o')) = false) /\
  (npr_Topology o' <> None -> NPR_empty o' = true ->
   NPR_empty (NPR_Merge r (Some o')) = true) /\
  NPR_Merge (NPR_Merge r (Some o')) (Some o') = NPR_Merge r (Some o') /\
  NPR_Copy r = r.
Proof.
  destruct r as [tr], o' as [[t|]]; unfold NPR_Merge, NPR_empty, NPR_Copy;
    simpl; repeat split; try reflexivity; try congruence; try discriminate.
Qed.

(** X7.  Legacy resources that [empty()] does not screen out upgrade to
    processor resources that are not empty: [topologyFromLegacy] returns
    a topology, the resources made of it are not empty, and merging them
    into any resources leaves those not empty. *)
Theorem legacy_upgrade_not_empty (old : LegacyNodeCpuResources)
  (r : NodeProcessorResources) :
  empty old = false ->
  exists t,
    topologyFromLegacy MHz CoreID old = Some t /\
    NPR_empty (NewNodeProcessorResources (Some t)) = false /\
    NPR_empty (NPR_Merge r (Some (NewNodeProcessorResources (Some t))))
    = false.
Proof.
  unfold empty, topologyFromLegacy, int64_div, ConvertSlice. intros He.
  apply orb_false_iff in He as [_ He]. apply Nat.eqb_neq in He.
  destruct (Z.eqb_spec (Z.of_nat (length (ReservableCpuCores old))) 0)
    as [E|_]; [lia|].
  eexists. split; [reflexivity|].
  unfold NPR_Merge, NPR_empty, NewNodeProcessorResources. simpl.
  rewrite length_map. split; apply Nat.eqb_neq; exact He.
Qed.

(** X8.  Where the conversion to [hw.MHz] keeps the value of a
    non-negative [int64]: for shares and a core count that are not
    negative and a frequency times core count that covers the shares,
    the total compute of the topology is the shares and the compute
    withheld is frequency times core count minus the shares; it is 0
    when every core is reservable and the shares divide evenly. *)
Theorem topologyFromLegacy_withheld (old : LegacyNodeCpuResources) :
  (forall x, (0 <= x < 2 ^ 63)%Z -> MHz x = x) ->
  0 < length (ReservableCpuCores old) ->
  (0 <= CpuShares old < 2 ^ 63)%Z ->
  (0 <= TotalCpuCores old < 2 ^ 16)%Z ->
  let n := Z.of_nat (length (ReservableCpuCores old)) in
  let q := (CpuShares old / n)%Z in
  (CpuShares old <= q * TotalCpuCores old < 2 ^ 63)%Z ->
  exists t,
    topologyFromLegacy MHz CoreID old = Some t /\
    OverrideTotalCompute t = CpuShares old /\
    OverrideWitholdCompute t = (q * TotalCpuCores old - CpuShares old)%Z /\
    (TotalCpuCores old = n -> (CpuShares old mod n = 0)%Z ->
     OverrideWitholdCompute t = 0%Z).
Proof.
  intros HM Hlen Hs Ht n q Hq.
  unfold topologyFromLegacy, int64_div, ConvertSlice. fold n.
  destruct (Z.eqb_spec n 0) as [E|_]; [unfold n in E; lia|].
  assert (Hn : (0 < n)%Z) by (unfold n; lia).
  rewrite Z.quot_div_nonneg by lia. fold q.
  assert (Hq0 : (0 <= q <= CpuShares old)%Z).
  { unfold q. split; [apply Z.div_pos; lia|].
    apply Z.div_le_upper_bound; nia. }
  eexists. split; [reflexivity|]. simpl.
  rewrite (HM q) by lia.
  rewrite (HM (TotalCpuCores old)) by lia.
  rewrite (HM (CpuShares old)) by lia.
  rewrite (HM (q * TotalCpuCores old)%Z) by lia.
  rewrite (HM (q * TotalCpuCores old - CpuShares old)%Z) by lia.
  repeat split. intros HT Hmod. rewrite HT. unfold q.
  pose proof (Z.div_mod (CpuShares old) n ltac:(lia)) as Hd.
  rewrite Hmod in Hd. lia.
Qed.

End NumaMore.

(** ** The further theorems at work *)

Lemma sample_heap2_wf : Structs.wf_heap sample_heap2.
Proof.
  intros l obj H. cbn [sample_heap2 Structs.actions] in H.
  apply lookup_insert_Some in H as [[<- <-] | [_ H]];
    [eexists; reflexivity|].
  apply lookup_singleton_Some in H as [<- <-]. eexists. reflexivity.
Qed.

Lemma Action_Equal_structural_witness :
  Structs.Equal (Some 0) (Some 1) sample_heap2 = Some true.
Proof.
  apply (proj1 (Action_Equal_structural sample_heap2 0 1 _ _
                  sample_heap2_wf eq_refl eq_refl)).
  repeat split.
Defined.

Lemma Action_Equal_equivalence_witness :
  Structs.Equal (Some 0) (Some 1) sample_heap2
  = Structs.Equal (Some 1) (Some 0) sample_heap2.
Proof.
  apply (Action_Equal_equivalence sample_heap2 (Some 0) (Some 1) None
           sample_heap2_wf);
    [eexists; reflexivity | eexists; reflexivity | exact I].
Defined.

Lemma Action_Copy_frame_witness :
  exists na h',
    Structs.Copy (Some 0) sample_heap = Some (Some na, h') /\
    Structs.wf_heap h' /\ is_Some (Structs.Copy (Some na) h').
Proof.
  destruct (Action_Copy_frame sample_heap 0 sample_action
              sample_heap_wf eq_refl)
    as (na & h' & cp & HC & _ & Hwf & _ & _ & _ & Hagain).
  exists na, h'. auto.
Defined.

Lemma legacy_upgrade_witness :
  exists t,
    Numa.topologyFromLegacy uint64 uint16 legacy4 = Some t /\
    Numa.NPR_empty (Numa.NewNodeProcessorResources (Some t)) = false.
Proof.
  destruct (legacy_upgrade_not_empty uint64 uint16 legacy4
              (Numa.mkNPR None) eq_refl) as (t & Ht & He & _).
  exists t. auto.
Defined.

Lemma topologyFromLegacy_withheld_witness :
  exists t,
    Numa.topologyFromLegacy uint64 uint16 legacy4 = Some t /\
    Numa.OverrideTotalCompute t = 8000%Z /\
    Numa.OverrideWitholdCompute t = 0%Z.
Proof.
  destruct (topologyFromLegacy_withheld uint64 uint16 legacy4)
    as (t & Ht & Htot & Hw & _).
  - intros x Hx. unfold uint64. apply Z.mod_small. lia.
  - simpl. lia.
  - simpl. lia.
  - simpl. lia.
  - vm_compute. split; [discriminate | reflexivity].
  - exists t. split; [exact Ht|]. split; [exact Htot | exact Hw].
Defined.

Lemma execImpl_without_tty_witness :
  releases
    (snd (execImpl (sample_env [OsSignal] (0%Z, None))
            ("abc123", ["server"]) "server" "web" "ping" false "~"
            (Some OsStdin) OsStdout OsStderr cooked)) = [].
Proof.
  pose proof (execImpl_without_tty (sample_env [OsSignal] (0%Z, None))
                ("abc123", ["server"]) "server" "web" "ping" false "~"
                (Some OsStdin) OsStdout OsStderr cooked eq_refl) as H.
  cbv zeta in H.
  destruct (execImpl _ _ _ _ _ _ _ _ _ _ _) as [[r s'] ev].
  apply H.
Defined.

Lemma Run_exec_streams_witness :
  let a := mkExecArgs ("abc123", ["server"]) "server" false "ping"
             (Some (Direct OsStdin)) OsStdout OsStderr in
  In (EvActionExec a)
     (snd (Run (sample_env [] (0%Z, None)) cmd
             (inr (flags_alloc "abc1" false "~")) cooked)) /\
  ea_action a = hd "" (args (flags_alloc "abc1" false "~")) /\
  ea_stdout a = OsStdout.
Proof.
  cbv zeta.
  assert (Ha : In (EvActionExec
                     (mkExecArgs ("abc123", ["server"]) "server" false "ping"
                        (Some (Direct OsStdin)) OsStdout OsStderr))
                  (snd (Run (sample_env [] (0%Z, None)) cmd
                          (inr (flags_alloc "abc1" false "~")) cooked)))
    by (simpl; do 4 right; left; reflexivity).
  split; [exact Ha|].
  destruct (Run_exec_streams (sample_env [] (0%Z, None)) cmd
              (flags_alloc "abc1" false "~") cooked _ Ha)
    as (H1 & _ & _ & H2 & _).
  split; [exact H1 | exact H2].
Defined.

Lemma Run_job_unused_witness :
  Run (sample_env [] (0%Z, None)) cmd
    (inr (set_job (flags_alloc "abc1" false "~") "db")) cooked
  = Run (sample_env [] (0%Z, None)) cmd
      (inr (flags_alloc "abc1" false "~")) cooked.
Proof.
  apply Run_job_unused_with_allocation; discriminate.
Defined.

Lemma execImpl_setup_failure_witness :
  execImpl sample_env_out_fails ("abc123", ["server"]) "server" "web" "ping"
    true "~" (Some OsStdin) OsStdout OsStderr raw_before
  = (((-1)%Z, Some "not a terminal"),
     mkState true true false true true false,
     [EvAcquire TermIn; EvRelease TermIn; EvCancel]).
Proof.
  exact (execImpl_setup_failure sample_env_out_fails ("abc123", ["server"])
           "server" "web" "ping" true "~" (Some OsStdin) OsStdout OsStderr
           raw_before eq_refl).
Defined.
